(** * Digital-transformation-index dashboard: a verification development

    A shallow embedding of [dt_index_streamlit.py]: the loader
    ([load_data]), the sidebar filter chain ([filtered_df]), the summary
    cards, the ranking table ([display_df]), the industry comparison
    ([industry_avg]) and the company trend ([trend_df]).

    Conventions of the embedding.
    - A Python [str] is the list of its code points ([pystr]), so that
      [len] is [length]; text written in the development as a Rocq string
      is ASCII and converted with [txt].
    - A float is the rational it denotes ([Q]); NaN is the absent value of
      an [option].
    - [sort_values] is the stable insertion sort.
    - What the libraries decide and the script does not is a variable of
      the section [Run]: the case folding of [re.IGNORECASE], what
      [re.compile] makes of syntax outside the embedded fragment, the
      floating-point mean of pandas, whether [astype(str)] turns a
      missing value into the text [nan] (pandas before 3) or keeps it
      missing, and what [astype(int)] makes of a float outside the
      64-bit range. *)

From Stdlib Require Import List NArith Nnat ZArith QArith Qround Bool Lia Ascii String.
From Stdlib Require Import Sorting.Sorted Sorting.Permutation.
Import ListNotations.

Local Open Scope Z_scope.

(** ** Python strings *)

(** A character is its code point, a text the list of its characters. *)
Notation "'char'" := N (only parsing).
Notation "'pystr'" := (list N) (only parsing).

Module PyStr.

Definition txt (s : string) : pystr :=
  List.map N_of_ascii (list_ascii_of_string s).

Definition eqb (a b : pystr) : bool :=
  if list_eq_dec N.eq_dec a b then true else false.

(** Lexicographic order on code points, the order of Python's [sorted]. *)
Fixpoint leb (a b : pystr) : bool :=
  match a, b with
  | [], _ => true
  | _ :: _, [] => false
  | x :: a', y :: b' =>
      if (x <? y)%N then true
      else if (y <? x)%N then false
      else leb a' b'
  end.

(** The case folding on the ASCII letters, for examples on ASCII text. *)
Definition ascii_lower (c : char) : char :=
  if ((65 <=? c) && (c <=? 90))%N then (c + 32)%N else c.

(** [str(n)] for an integer. *)
Fixpoint digits_pos (fuel : nat) (n : N) (acc : pystr) : pystr :=
  match fuel with
  | O => acc
  | S fuel' =>
      let acc' := (48 + n mod 10)%N :: acc in
      if (n <? 10)%N then acc' else digits_pos fuel' (n / 10)%N acc'
  end.

Definition str_of_N (n : N) : pystr :=
  digits_pos (S (N.to_nat (N.log2 n))) n [].

Definition str_of_Z (z : Z) : pystr :=
  if z <? 0 then 45%N :: str_of_N (Z.abs_N z) else str_of_N (Z.abs_N z).

(** [s.zfill(width)]: zeros go after a leading sign. *)
Definition zfill (width : nat) (s : pystr) : pystr :=
  let pad := repeat 48%N (width - List.length s) in
  match s with
  | c :: rest =>
      if ((c =? 43) || (c =? 45))%N then c :: pad ++ rest else pad ++ s
  | [] => pad
  end.

(** A text that starts with a sign: [zfill] puts the zeros after it. *)
Definition signed (s : pystr) : bool :=
  match s with
  | c :: _ => ((c =? 43) || (c =? 45))%N
  | [] => false
  end.

End PyStr.
Import PyStr.

(** ** Values of the library variables for the examples

    The examples below are on ASCII text, where the case folding is that
    of the ASCII letters, on patterns inside the embedded fragment, and
    on scores whose sums and means are exact in floating point. *)

Definition no_beyond : pystr -> option (pystr -> bool) := fun _ => None.

Definition exact_mean (l : list Q) : Q :=
  (fold_right Qplus 0 l / inject_Z (Z.of_nat (List.length l)))%Q.

Section Run.

(** The case folding under which [re.IGNORECASE] compares characters:
    two characters match when their foldings are equal. *)
Variable fold : char -> char.

(** [re.compile(pat, re.IGNORECASE)] on a pattern with syntax outside the
    fragment embedded below: [re.error] ([None]) or the compiled
    pattern's [search] on a text. *)
Variable beyond : pystr -> option (pystr -> bool).

(** [Series.mean()] of floats that are not NaN, at least one. *)
Variable fmean : list Q -> Q.

(** [astype(str)] turns a missing value into the text [nan] (pandas
    before 3); otherwise the value stays missing. *)
Variable na_as_text : bool.

(** [astype(int)] of a float whose integer part is outside the 64-bit
    range: an error ([None]) or the integer the cast leaves. *)
Variable out_of_range : Q -> option Z.

Definition casefold (s : pystr) : pystr := List.map fold s.

Definition same_ci (a b : char) : bool := (fold a =? fold b)%N.

(** The rule the specification words for the search box: [p] occurs in
    [s] as a literal substring, letter case apart. *)
Fixpoint prefix_ci (p s : pystr) : bool :=
  match p, s with
  | [], _ => true
  | _ :: _, [] => false
  | a :: p', b :: s' => same_ci a b && prefix_ci p' s'
  end.

Fixpoint icontains (p s : pystr) : bool :=
  prefix_ci p s ||
  match s with
  | [] => false
  | _ :: s' => icontains p s'
  end.

(** ** Regular expressions: [re.compile(pat, re.IGNORECASE)] and [search]

    [Series.str.contains(pat, case=False)] is called with its default
    [regex=True]: the text typed in the search box is compiled as a
    pattern and every cell is tested with [search]. *)

Inductive regex : Type :=
| Void
| Eps
| Chr (c : char)
| Dot
| Cat (r1 r2 : regex)
| Alt (r1 r2 : regex)
| Star (r : regex).

(** Characters with a meaning of their own in a pattern. *)
Definition is_meta (c : char) : bool :=
  existsb (N.eqb c) [46; 94; 36; 42; 43; 63; 123; 125; 91; 93; 92; 124; 40; 41]%N.

(** A text without special characters. *)
Definition plain (p : pystr) : bool := forallb (fun c => negb (is_meta c)) p.

(** What parsing a pattern gives.  [Beyond] marks syntax that this
    embedding does not cover (character classes, anchors, counted and
    lazy repetition, escapes of letters and digits, group extensions):
    what Python makes of such a pattern is [beyond]. *)
Inductive compiled : Type :=
| Pattern (r : regex)
| BadPattern          (* re.error *)
| Beyond.

(** One nesting level of the parser: the alternatives already closed and
    the atoms of the alternative being read, both latest first. *)
Record level : Type := Level { closed : list regex; atoms : list regex }.

Definition level0 : level := Level [] [].

Definition cat_of (l : list regex) : regex := fold_right Cat Eps l.

Fixpoint alt_of (r : regex) (l : list regex) : regex :=
  match l with
  | [] => r
  | r' :: l' => Alt r (alt_of r' l')
  end.

Definition close (lv : level) : regex :=
  match rev (cat_of (rev (atoms lv)) :: closed lv) with
  | [] => Eps
  | r :: l => alt_of r l
  end.

Definition push (r : regex) (lv : level) : level :=
  Level (closed lv) (r :: atoms lv).

Definition next_alt (lv : level) : level :=
  Level (cat_of (rev (atoms lv)) :: closed lv) [].

Definition repeat_of (c : char) (r : regex) : regex :=
  if (c =? 42)%N then Star r
  else if (c =? 43)%N then Cat r (Star r)
  else Alt r Eps.

(** [parse p top outer rep]: [top] is the level being read, [outer] the
    enclosing ones, [rep] tells that the latest atom already carries a
    repetition. *)
Fixpoint parse (p : pystr) (top : level) (outer : list level) (rep : bool)
  : compiled :=
  match p with
  | [] =>
      match outer with
      | [] => Pattern (close top)
      | _ :: _ => BadPattern           (* missing ), unterminated subpattern *)
      end
  | c :: p' =>
      if (c =? 40)%N then                                   (* ( *)
        match p' with
        | 63%N :: _ => Beyond                               (* (?...) *)
        | _ => parse p' level0 (top :: outer) false
        end
      else if (c =? 41)%N then                              (* ) *)
        match outer with
        | [] => BadPattern                                  (* unbalanced parenthesis *)
        | up :: outer' => parse p' (push (close top) up) outer' false
        end
      else if (c =? 124)%N then                             (* | *)
        parse p' (next_alt top) outer false
      else if ((c =? 42) || (c =? 43) || (c =? 63))%N then  (* * + ? *)
        match atoms top with
        | [] => BadPattern                                  (* nothing to repeat *)
        | a :: rest =>
            if rep then Beyond
            else parse p' (Level (closed top) (repeat_of c a :: rest)) outer true
        end
      else if (c =? 92)%N then                              (* backslash *)
        match p' with
        | [] => BadPattern                                  (* bad escape (end of pattern) *)
        | e :: p'' =>
            if is_meta e then parse p'' (push (Chr e) top) outer false
            else Beyond
        end
      else if (c =? 46)%N then                              (* . *)
        parse p' (push Dot top) outer false
      else if is_meta c then Beyond                         (* ^ $ [ ] { } *)
      else parse p' (push (Chr c) top) outer false
  end.

Definition compile (pat : pystr) : compiled := parse pat level0 [] false.

(** Matching by derivatives. *)
Fixpoint nullable (r : regex) : bool :=
  match r with
  | Void | Chr _ | Dot => false
  | Eps | Star _ => true
  | Cat r1 r2 => nullable r1 && nullable r2
  | Alt r1 r2 => nullable r1 || nullable r2
  end.

Fixpoint deriv (x : char) (r : regex) : regex :=
  match r with
  | Void | Eps => Void
  | Chr c => if same_ci c x then Eps else Void
  | Dot => if (x =? 10)%N then Void else Eps
  | Cat r1 r2 =>
      if nullable r1 then Alt (Cat (deriv x r1) r2) (deriv x r2)
      else Cat (deriv x r1) r2
  | Alt r1 r2 => Alt (deriv x r1) (deriv x r2)
  | Star r1 => Cat (deriv x r1) (Star r1)
  end.

(** Some prefix of [s] matches [r]. *)
Fixpoint match_here (r : regex) (s : pystr) : bool :=
  nullable r ||
  match s with
  | [] => false
  | x :: s' => match_here (deriv x r) s'
  end.

(** [re.search]: a match starts somewhere in [s]. *)
Fixpoint search (r : regex) (s : pystr) : bool :=
  match_here r s ||
  match s with
  | [] => false
  | _ :: s' => search r s'
  end.

(** The words a pattern matches. *)
Inductive lang : regex -> pystr -> Prop :=
| L_eps : lang Eps []
| L_chr c x : same_ci c x = true -> lang (Chr c) [x]
| L_dot x : x <> 10%N -> lang Dot [x]
| L_cat r1 r2 u v : lang r1 u -> lang r2 v -> lang (Cat r1 r2) (u ++ v)
| L_alt_l r1 r2 u : lang r1 u -> lang (Alt r1 r2) u
| L_alt_r r1 r2 u : lang r2 u -> lang (Alt r1 r2) u
| L_star_nil r : lang (Star r) []
| L_star_app r u v : lang r u -> lang (Star r) v -> lang (Star r) (u ++ v).

(** [re.compile(pat, re.IGNORECASE)]: [None] is [re.error], otherwise
    the [search] of the compiled pattern on a text. *)
Definition matcher (pat : pystr) : option (pystr -> bool) :=
  match compile pat with
  | Pattern re => Some (search re)
  | BadPattern => None
  | Beyond => beyond pat
  end.


(** ** The table *)

(** A cell of the spreadsheet as [read_excel] hands it over. *)
Inductive cell : Type :=
| NaN                      (* empty cell *)
| Str (s : pystr)
| Int (z : Z)
| Float (q : Q).

(** One line of the spreadsheet.  Company names and industries are text
    or empty, scores and word counts are numbers or empty. *)
Record raw_row : Type := RawRow {
  raw_stock_code : cell;               (* 股票代码 *)
  raw_company_name : option pystr;     (* 企业名称 *)
  raw_year : cell;                     (* 年份 *)
  raw_industry_name : option pystr;    (* 行业名称 *)
  raw_index_score : option Q;          (* 数字化转型指数(0-100分) *)
  raw_tech : list (option Q);          (* the seven technology columns *)
  raw_total_words : option Q           (* 总词频数 *)
}.

(** One record of the loaded table. *)
Record row : Type := Row {
  stock_code : pystr;
  company_name : pystr;
  year : Z;
  industry_name : option pystr;
  index_score : Q;
  tech : list (option Q);
  total_words : option Q
}.

Definition table := list row.

(** 未知, 未知行业 and 全部. *)
Definition unknown : pystr := [26410; 30693]%N.
Definition unknown_industry : pystr := [26410; 30693; 34892; 19994]%N.
Definition all_industries : pystr := [20840; 37096]%N.

(** [int(x)] of a float: truncation towards zero. *)
Definition py_int (q : Q) : Z := Z.quot (Qnum q) (Zpos (Qden q)).

(** ** load_data *)

Section Loader.

(** Python's [str] of a float and [int] of a text. *)
Variable float_str : Q -> pystr.
Variable int_of_str : pystr -> option Z.

Definition py_str (x : cell) : pystr :=
  match x with
  | NaN => txt "nan"
  | Str s => s
  | Int z => str_of_Z z
  | Float q => float_str q
  end.

Definition is_str_or_int (x : cell) : bool :=
  match x with
  | Str _ | Int _ => true
  | NaN | Float _ => false
  end.

(** The condition of the lambda applied to the stock-code column. *)
Definition padded (x : cell) : bool :=
  is_str_or_int x && negb (PyStr.eqb (py_str x) unknown)
  && (List.length (py_str x) <? 6)%nat.

(** The lambda itself. *)
Definition pad_code (x : cell) : cell :=
  if padded x then Str (zfill 6 (py_str x)) else x.

(** The stock code as stored: the lambda, then [astype(str)]. *)
Definition normalize_code (x : cell) : pystr := py_str (pad_code x).






Definition in_int64 (z : Z) : bool :=
  (- 2 ^ 63 <=? z) && (z <? 2 ^ 63).

(** One value of [astype(int)]: an integer of 64 bits, or an error. *)
Definition to_int (x : cell) : option Z :=
  match x with
  | NaN => None
  | Str s =>
      match int_of_str s with
      | Some z => if in_int64 z then Some z else None
      | None => None
      end
  | Int z => if in_int64 z then Some z else None
  | Float q => if in_int64 (py_int q) then Some (py_int q) else out_of_range q
  end.

Definition typed (r : raw_row) : option row :=
  match raw_stock_code r, raw_company_name r, to_int (raw_year r),
        raw_index_score r with
  | Str code, Some name, Some y, Some score =>
      Some (Row code name y (raw_industry_name r)
                score (raw_tech r) (raw_total_words r))
  | _, _, _, _ => None
  end.

Fixpoint all_typed (l : list raw_row) : option table :=
  match l with
  | [] => Some []
  | r :: l' =>
      match typed r, all_typed l' with
      | Some x, Some t => Some (x :: t)
      | _, _ => None
      end
  end.


End Loader.


(** ** The sidebar and the filter chain *)

(** What a piece of the script gives: it returns, or it raises.
    [Unmodelled] stands for a reference to no object, which no run of
    the script makes. *)
Inductive exn : Type := ValueError | ReError | StreamlitAPIException.

Inductive outcome (A : Type) : Type :=
| Returns (a : A)
| Raises (e : exn)
| Unmodelled.
Arguments Returns {A} a.
Arguments Raises {A} e.
Arguments Unmodelled {A}.

Definition fillna_industry (df : table) : table :=
  List.map (fun r =>
    Row (stock_code r) (company_name r) (year r)
        (Some (match industry_name r with
               | Some s => s
               | None => unknown_industry
               end))
        (index_score r) (tech r) (total_words r)) df.

Fixpoint series_min (l : list Q) : option Q :=
  match l with
  | [] => None
  | x :: l' =>
      match series_min l' with
      | None => Some x
      | Some m => Some (if Qle_bool x m then x else m)
      end
  end.

Fixpoint series_max (l : list Q) : option Q :=
  match l with
  | [] => None
  | x :: l' =>
      match series_max l' with
      | None => Some x
      | Some m => Some (if Qle_bool m x then x else m)
      end
  end.

Definition series_mean (l : list Q) : option Q :=
  match l with
  | [] => None
  | _ :: _ => Some (fmean l)
  end.

Definition scores (t : table) : list Q := List.map index_score t.

(** [int(df[...].min())], [int(df[...].max())]: the bounds and the
    default value of the slider. *)
Definition min_index (df : table) : outcome Z :=
  match series_min (scores df) with
  | Some m => Returns (py_int m)
  | None => Raises ValueError
  end.

Definition max_index (df : table) : outcome Z :=
  match series_max (scores df) with
  | Some m => Returns (py_int m)
  | None => Raises ValueError
  end.

Definition default_range (df : table) : outcome (Z * Z) :=
  match min_index df, max_index df with
  | Returns lo, Returns hi => Returns (lo, hi)
  | Raises e, _ => Raises e
  | _, Raises e => Raises e
  | _, _ => Unmodelled
  end.

(** [st.sidebar.slider(min_value, max_value, value)]: the widget refuses
    bounds that leave no range. *)
Definition slider (bounds : Z * Z) : outcome unit :=
  if fst bounds <? snd bounds then Returns tt
  else Raises StreamlitAPIException.

(** The values the widgets return. *)
Record widgets : Type := Widgets {
  selected_year : Z;
  selected_industry : pystr;
  index_range : Z * Z;
  company_search : pystr
}.

Definition in_year (y : Z) (r : row) : bool := year r =? y.

Definition in_industry (name : pystr) (r : row) : bool :=
  match industry_name r with
  | Some s => PyStr.eqb s name
  | None => false
  end.

Definition in_range (rg : Z * Z) (r : row) : bool :=
  Qle_bool (inject_Z (fst rg)) (index_score r)
  && Qle_bool (index_score r) (inject_Z (snd rg)).

(** [企业名称.str.contains(..) | 股票代码.str.contains(..)] for one row,
    [p] being the search of the compiled pattern. *)
Definition hit (p : pystr -> bool) (r : row) : bool :=
  p (company_name r) || p (stock_code r).

(** Rows of [t] that the search text selects. *)
Definition contains_mask (pat : pystr) (t : table) : outcome table :=
  match matcher pat with
  | Some p => Returns (List.filter (hit p) t)
  | None => Raises ReError
  end.

Definition by_industry (name : pystr) (t : table) : table :=
  if PyStr.eqb name all_industries then t
  else List.filter (in_industry name) t.

Definition by_search (pat : pystr) (t : table) : outcome table :=
  match pat with
  | [] => Returns t
  | _ :: _ => contains_mask pat t
  end.

Definition filtered_df (df : table) (w : widgets) : outcome table :=
  by_search (company_search w)
    (List.filter (in_range (index_range w))
       (by_industry (selected_industry w)
          (List.filter (in_year (selected_year w)) df))).

(** ** Sorting *)

Section Sort.
Context {A : Type} (le : A -> A -> bool).

Fixpoint insert_by (x : A) (l : list A) : list A :=
  match l with
  | [] => [x]
  | h :: t => if le x h then x :: l else h :: insert_by x t
  end.

(** Stable: an element is put before the first one it may precede. *)
Definition sort_by (l : list A) : list A := fold_right insert_by [] l.

End Sort.

(** ** The summary cards *)

(** What is put in a column of the page: [st.empty()] or [st.metric]
    with a text or an integer. *)
Inductive card : Type :=
| Blank
| Text (s : pystr)
| Number (z : Z).

Record cards : Type := Cards {
  count_card : card;
  mean_card : card;
  max_card : card;
  min_card : card
}.

(** [f"{x:.1f}"]: one decimal, ties to even. *)
Definition tenths (q : Q) : N :=
  let n := (Z.abs_N (Qnum q) * 10)%N in
  let d := Npos (Qden q) in
  let f := (n / d)%N in
  let r := (n mod d)%N in
  match (2 * r ?= d)%N with
  | Lt => f
  | Gt => (f + 1)%N
  | Eq => if N.even f then f else (f + 1)%N
  end.

Definition fmt1 (q : Q) : pystr :=
  (if Qnum q <? 0 then [45%N] else [])
  ++ str_of_N (tenths q / 10) ++ [46%N] ++ str_of_N (tenths q mod 10).

Definition avg_index (filtered : table) : option Q := series_mean (scores filtered).
Definition top_score (filtered : table) : option Q := series_max (scores filtered).
Definition low_score (filtered : table) : option Q := series_min (scores filtered).

Definition metrics (filtered : table) : cards :=
  let n := Number (Z.of_nat (List.length filtered)) in
  match filtered with
  | [] => Cards n Blank Blank Blank
  | _ :: _ =>
      Cards n
        (match avg_index filtered with
         | Some a => Text (fmt1 a)
         | None => Text (txt "N/A")
         end)
        (match top_score filtered with
         | Some m => Number (py_int m)
         | None => Number 0
         end)
        (match low_score filtered with
         | Some m => Number (py_int m)
         | None => Number 0
         end)
  end.

(** ** The ranking table *)

Definition score_desc (a b : row) : bool := Qle_bool (index_score b) (index_score a).

Definition ranked_df (filtered : table) : table := sort_by score_desc filtered.

(** The five columns shown. *)
Record listing : Type := Listing {
  l_stock_code : pystr;
  l_company_name : pystr;
  l_industry_name : option pystr;
  l_index_score : Q;
  l_total_words : option Q
}.

Definition columns (r : row) : listing :=
  Listing (stock_code r) (company_name r) (industry_name r)
          (index_score r) (total_words r).

(** [range(a, b)]. *)
Definition range (a b : Z) : list Z :=
  List.map (fun i => a + Z.of_nat i) (seq 0 (Z.to_nat (b - a))).

Definition head {A} (n : nat) (l : list A) : list A := firstn n l.

(** [display_df] once the rank column is inserted: rank and record. *)
Definition display_df (filtered : table) : list (Z * listing) :=
  let shown := head 20 (List.map columns (ranked_df filtered)) in
  combine (range 1 (Z.of_nat (List.length shown) + 1)) shown.

(** ** The industry comparison *)

Definition keys (t : table) : list pystr :=
  sort_by PyStr.leb
    (nodup (list_eq_dec N.eq_dec)
       (flat_map (fun r => match industry_name r with
                           | Some s => [s]
                           | None => []
                           end) t)).

(** [groupby(行业名称)[数字化转型指数(0-100分)].mean()]. *)
Definition group_mean (t : table) : list (pystr * option Q) :=
  List.map (fun k => (k, series_mean (scores (List.filter (in_industry k) t))))
           (keys t).

(** Descending, NaN last. *)
Definition value_desc (a b : pystr * option Q) : bool :=
  match snd a, snd b with
  | Some x, Some y => Qle_bool y x
  | Some _, None => true
  | None, Some _ => false
  | None, None => true
  end.

Definition industry_comparison (df : table) (y : Z) : table :=
  List.filter (in_year y) df.

Definition industry_avg (df : table) (y : Z) : list (pystr * option Q) :=
  sort_by value_desc (group_mean (industry_comparison df y)).

(** ** The company trend *)

Definition year_asc (a b : row) : bool := year a <=? year b.

Definition trend_df (df : table) (pat : pystr) : outcome table :=
  match contains_mask pat df with
  | Returns t => Returns (sort_by year_asc t)
  | Raises e => Raises e
  | Unmodelled => Unmodelled
  end.

(** The points of the line chart: x is the year, y the score. *)
Definition points (t : table) : list (Z * Q) :=
  List.map (fun r => (year r, index_score r)) t.

(** The company named in the title of the chart. *)
Definition titled (t : table) : option pystr :=
  match t with
  | [] => None
  | r :: _ => Some (company_name r)
  end.

(** ** The script as a program over a store of objects

    Python variables hold references.  [df[col] = ...] and
    [display_df.insert(...)] change the object referred to; [df.copy()],
    boolean indexing, [sort_values], [head] and [groupby] make new
    objects. *)

Inductive obj : Type :=
| DataFrame (t : table)
| Shown (rows : list listing) (ranks : option (list Z))
| Series (s : list (pystr * option Q)).

Definition heap := list obj.
Definition ref := nat.

Definition M (A : Type) : Type := heap -> outcome A * heap.

Definition ret {A} (a : A) : M A := fun h => (Returns a, h).

Definition bind {A B} (m : M A) (k : A -> M B) : M B :=
  fun h =>
    match m h with
    | (Returns a, h') => k a h'
    | (Raises e, h') => (Raises e, h')
    | (Unmodelled, h') => (Unmodelled, h')
    end.

Notation "x <- m ;; k" := (bind m (fun x => k))
  (at level 61, m at next level, right associativity).
Notation "m ;;; k" := (bind m (fun _ => k))
  (at level 61, right associativity).

Definition lift {A} (o : outcome A) : M A := fun h => (o, h).

(** A new object; its reference is returned. *)
Definition new (o : obj) : M ref := fun h => (Returns (List.length h), h ++ [o]).

Fixpoint replace_at (i : nat) (o : obj) (h : heap) : heap :=
  match h, i with
  | [], _ => []
  | _ :: h', O => o :: h'
  | x :: h', S i' => x :: replace_at i' o h'
  end.

(** The object behind a reference is replaced in place. *)
Definition assign (r : ref) (o : obj) : M unit :=
  fun h => (Returns tt, replace_at r o h).

Definition frame_at (r : ref) : M table :=
  fun h =>
    match nth_error h r with
    | Some (DataFrame t) => (Returns t, h)
    | _ => (Unmodelled, h)
    end.

Definition shown_at (r : ref) : M (list listing) :=
  fun h =>
    match nth_error h r with
    | Some (Shown rows _) => (Returns rows, h)
    | _ => (Unmodelled, h)
    end.

(** [x[mask]], [x.sort_values(..)], [x.copy()]: a new frame computed
    from the one at [r]. *)
Definition derive (r : ref) (f : table -> table) : M ref :=
  t <- frame_at r ;; new (DataFrame (f t)).

Definition derive_or_raise (r : ref) (f : table -> outcome table) : M ref :=
  t <- frame_at r ;; t' <- lift (f t) ;; new (DataFrame t').

(** The references the script ends up with. *)
Record names : Type := Names {
  n_df : ref;
  n_filtered_df : ref;
  n_display_df : ref;
  n_industry_avg : ref;
  n_trend_df : option ref
}.

(** Line 61: [df[行业名称] = df[行业名称].fillna(未知行业)]. *)
Definition fill_industry (df : ref) : M unit :=
  t <- frame_at df ;; assign df (DataFrame (fillna_industry t)).

(** Lines 66 to 240 for the values [w] of the widgets. *)
Definition page (df : ref) (w : widgets) : M names :=
  t <- frame_at df ;;
  bounds <- lift (default_range t) ;;
  lift (slider bounds) ;;;
  filtered <- derive df (fun t => t) ;;
  filtered <- derive filtered (List.filter (in_year (selected_year w))) ;;
  filtered <- (if PyStr.eqb (selected_industry w) all_industries
               then ret filtered
               else derive filtered (List.filter (in_industry (selected_industry w)))) ;;
  filtered <- derive filtered (List.filter (in_range (index_range w))) ;;
  filtered <- (match company_search w with
               | [] => ret filtered
               | _ :: _ => derive_or_raise filtered (contains_mask (company_search w))
               end) ;;
  ranked <- derive filtered (sort_by score_desc) ;;
  t <- frame_at ranked ;;
  display <- new (Shown (head 20 (List.map columns t)) None) ;;
  rows <- shown_at display ;;
  assign display
    (Shown rows (Some (range 1 (Z.of_nat (List.length rows) + 1)))) ;;;
  comparison <- derive df (List.filter (in_year (selected_year w))) ;;
  t <- frame_at comparison ;;
  avg <- new (Series (sort_by value_desc (group_mean t))) ;;
  trend <- (match company_search w with
            | [] => ret None
            | _ :: _ =>
                matched <- derive_or_raise df (contains_mask (company_search w)) ;;
                sorted <- derive matched (sort_by year_asc) ;;
                ret (Some sorted)
            end) ;;
  ret (Names df filtered display avg trend).

(** The whole run on the table that [load_data] returned. *)
Definition script (loaded : table) (w : widgets) : M names :=
  df <- new (DataFrame loaded) ;;
  fill_industry df ;;;
  page df w.

(** The store only grew past [h0], whose objects are as they were. *)
Definition untouched (h0 h : heap) : Prop := exists ext, h = h0 ++ ext.

(** [m], run from a store that extends [h0], keeps [h0] as it is, and
    what it returns satisfies [Q]. *)
Definition keeps {A} (h0 : heap) (m : M A) (Q : A -> Prop) : Prop :=
  forall h, untouched h0 h ->
    untouched h0 (snd (m h)) /\ forall a, fst (m h) = Returns a -> Q a.

(** A reference made after [h0]. *)
Definition fresh (h0 : heap) (r : ref) : Prop := (List.length h0 <= r)%nat.

(** ** The selectors, the recommendation, the radar and the bar chart *)

(** [sorted(df[年份].unique())], the options of the year selector. *)
Definition years (df : table) : list Z :=
  sort_by Z.leb (nodup Z.eq_dec (List.map year df)).

(** The option at [index = len(years) - 1], the year selected when the
    page opens; none when the list is empty. *)
Definition default_year (df : table) : option Z :=
  let index := Z.of_nat (List.length (years df)) - 1 in
  if index <? 0 then None else nth_error (years df) (Z.to_nat index).

(** [sorted(df[行业名称].unique())] on the table after line 61, and the
    options of the industry selector. *)
Definition industries (loaded : table) : list pystr :=
  keys (fillna_industry loaded).

Definition industry_options (loaded : table) : list pystr :=
  all_industries :: industries loaded.

(** Line 132:
    [df.groupby(行业名称)[企业名称].count().sort_values(ascending=False)
       .head(3).index.tolist()]. *)
Definition company_counts (df : table) : list (pystr * nat) :=
  List.map (fun k => (k, List.length (List.filter (in_industry k) df)))
           (keys df).

Definition count_desc (a b : pystr * nat) : bool := (snd b <=? snd a)%nat.

Definition top_industries (df : table) : list pystr :=
  List.map fst (head 3 (sort_by count_desc (company_counts df))).





(** Line 209: [industry_avg.head(10)], what the bar chart shows. *)
Definition bar_chart (df : table) (y : Z) : list (pystr * option Q) :=
  head 10 (industry_avg df y).

(** * Properties *)

(** ** Text *)

Lemma eqb_eq a b : PyStr.eqb a b = true <-> a = b.
Proof.
  unfold PyStr.eqb. destruct (list_eq_dec N.eq_dec a b); split; congruence.
Qed.

Lemma eqb_refl a : PyStr.eqb a a = true.
Proof. now apply eqb_eq. Qed.

Lemma eqb_neq a b : PyStr.eqb a b = false <-> a <> b.
Proof.
  unfold PyStr.eqb. destruct (list_eq_dec N.eq_dec a b); split; congruence.
Qed.

Lemma zfill_unsigned w s :
  signed s = false -> zfill w s = repeat 48%N (w - List.length s) ++ s.
Proof.
  destruct s as [|c s]; simpl; intros H.
  - now rewrite app_nil_r.
  - now rewrite H.
Qed.

Lemma zfill_signed w c s :
  signed (c :: s) = true ->
  zfill w (c :: s) = c :: repeat 48%N (w - List.length (c :: s)) ++ s.
Proof. simpl. now intros ->. Qed.

Lemma zfill_length w s :
  (List.length s <= w)%nat -> List.length (zfill w s) = w.
Proof.
  intros H. destruct (signed s) eqn:E.
  - destruct s as [|c s]; [discriminate|].
    rewrite (zfill_signed w c s E).
    cbn [List.length] in *. rewrite length_app, repeat_length. lia.
  - rewrite (zfill_unsigned w s E), length_app, repeat_length. lia.
Qed.

Lemma zfill_full w s : (w <= List.length s)%nat -> zfill w s = s.
Proof.
  intros H. unfold zfill. replace (w - List.length s)%nat with O by lia.
  destruct s as [|c s]; simpl; [reflexivity|].
  now destruct ((c =? 43) || (c =? 45))%N.
Qed.

(** [str_of_N] has fuel enough: more of it changes nothing. *)
Lemma digits_pos_more fuel n acc :
  (n < 2 ^ N.of_nat (S fuel))%N ->
  digits_pos (S (S fuel)) n acc = digits_pos (S fuel) n acc.
Proof.
  revert n acc. induction fuel as [|fuel IH]; intros n acc Hn.
  - cbn [digits_pos]. destruct (n <? 10)%N eqn:E; [reflexivity|].
    apply N.ltb_ge in E. change (2 ^ N.of_nat 1)%N with 2%N in Hn. lia.
  - change (digits_pos (S (S (S fuel))) n acc)
      with (let acc' := (48 + n mod 10)%N :: acc in
            if (n <? 10)%N then acc'
            else digits_pos (S (S fuel)) (n / 10)%N acc').
    change (digits_pos (S (S fuel)) n acc)
      with (let acc' := (48 + n mod 10)%N :: acc in
            if (n <? 10)%N then acc'
            else digits_pos (S fuel) (n / 10)%N acc').
    cbv zeta. destruct (n <? 10)%N; [reflexivity|].
    apply IH. apply N.Div0.div_lt_upper_bound.
    rewrite Nat2N.inj_succ, N.pow_succ_r' in Hn. lia.
Qed.

Lemma str_of_N_fuel n k :
  digits_pos (S (N.to_nat (N.log2 n)) + k) n [] = str_of_N n.
Proof.
  unfold str_of_N. induction k as [|k IH].
  - now rewrite Nat.add_0_r.
  - rewrite <- IH. rewrite Nat.add_succ_r.
    change (S (N.to_nat (N.log2 n)) + k)%nat
      with (S (N.to_nat (N.log2 n) + k))%nat.
    apply digits_pos_more.
    destruct (N.eq_dec n 0) as [->|Hn].
    + apply N.lt_le_trans with (2 ^ 0)%N; [reflexivity|].
      apply N.pow_le_mono_r; lia.
    + apply N.lt_le_trans with (2 ^ N.succ (N.log2 n))%N.
      * apply N.log2_spec. lia.
      * apply N.pow_le_mono_r; lia.
Qed.


(** ** The loader *)

Section LoaderFacts.

Variable float_str : Q -> pystr.
Variable int_of_str : pystr -> option Z.

Lemma normalize_code_cases x :
  normalize_code float_str x = if padded float_str x then zfill 6 (py_str float_str x) else py_str float_str x.
Proof.
  unfold normalize_code, pad_code.
  now destruct (padded float_str x).
Qed.

Lemma normalize_code_padded x :
  padded float_str x = true -> List.length (normalize_code float_str x) = 6%nat.
Proof.
  intros H. rewrite normalize_code_cases, H.
  apply zfill_length. unfold padded in H.
  apply andb_prop in H as [_ H]. apply Nat.ltb_lt in H. lia.
Qed.

Lemma normalize_code_again x :
  is_str_or_int x = true -> normalize_code float_str (Str (normalize_code float_str x)) = normalize_code float_str x.
Proof.
  intros Hx.
  rewrite (normalize_code_cases (Str (normalize_code float_str x))).
  destruct (padded float_str (Str (normalize_code float_str x))) eqn:E; [|reflexivity].
  exfalso. unfold padded in E. simpl in E.
  apply andb_prop in E as [E1 E2]. apply Nat.ltb_lt in E2.
  apply negb_true_iff, eqb_neq in E1.
  destruct (padded float_str x) eqn:P.
  - rewrite (normalize_code_padded x P) in E2. lia.
  - rewrite normalize_code_cases, P in E1, E2.
    unfold padded in P. rewrite Hx in P. simpl in P.
    apply andb_false_iff in P as [P|P].
    + apply negb_false_iff, eqb_eq in P. congruence.
    + apply Nat.ltb_ge in P. lia.
Qed.

End LoaderFacts.

(** C7. Stock-code normalization: a text or an integer other than the
    sentinel 未知 whose text is shorter than 6 characters is filled with
    zeros on the left to 6 characters ([zfill], which keeps a leading
    sign in front of the zeros); any other value is kept; what is stored
    is always the text of the value.  Hence a code of 6 characters is
    stored as it is, normalizing twice is normalizing once, and the code
    123 becomes 000123. *)
Theorem normalize_code_spec (float_str : Q -> pystr) :
  (forall x,
      normalize_code float_str x =
        if is_str_or_int x
           && negb (PyStr.eqb (py_str float_str x) unknown)
           && (List.length (py_str float_str x) <? 6)%nat
        then zfill 6 (py_str float_str x)
        else py_str float_str x)
  /\ (forall s, signed s = false ->
        zfill 6 s = repeat 48%N (6 - List.length s) ++ s)
  /\ (forall c s, signed (c :: s) = true ->
        zfill 6 (c :: s) = c :: repeat 48%N (6 - List.length (c :: s)) ++ s)
  /\ (forall x, padded float_str x = true ->
        List.length (normalize_code float_str x) = 6%nat)
  /\ (forall s, List.length s = 6%nat -> normalize_code float_str (Str s) = s)
  /\ (forall z, List.length (str_of_Z z) = 6%nat ->
        normalize_code float_str (Int z) = str_of_Z z)
  /\ (forall x, is_str_or_int x = true ->
        normalize_code float_str (Str (normalize_code float_str x))
        = normalize_code float_str x)
  /\ normalize_code float_str (Str (txt "123")) = txt "000123"
  /\ normalize_code float_str (Int 123) = txt "000123".
Proof.
  repeat split.
  - intros x. apply normalize_code_cases.
  - intros s. apply zfill_unsigned.
  - intros c s. apply zfill_signed.
  - apply normalize_code_padded.
  - intros s H. rewrite normalize_code_cases. unfold padded. simpl.
    rewrite H. simpl. now rewrite andb_false_r.
  - intros z H. rewrite normalize_code_cases. unfold padded. simpl.
    rewrite H. simpl. now rewrite andb_false_r.
  - apply normalize_code_again.
Qed.

Lemma normalize_code_spec_witness :
  normalize_code (fun _ => []) (Str (txt "600000")) = txt "600000"
  /\ normalize_code (fun _ => []) (Str (normalize_code (fun _ => []) (Int 7)))
     = txt "000007".
Proof.
  destruct (normalize_code_spec (fun _ => [])) as (_ & _ & _ & _ & H5 & _ & H7 & _).
  split.
  - apply H5. reflexivity.
  - rewrite H7; reflexivity.
Defined.

(** Every record of a loaded table is a complete line of the sheet, typed. *)
Lemma all_typed_In int_of_str l t :
  all_typed int_of_str l = Some t ->
  forall r, In r t ->
  exists raw, In raw l /\ typed int_of_str raw = Some r.
Proof.
  revert t. induction l as [|raw l IH]; simpl; intros t H r Hr.
  - injection H as <-. contradiction.
  - destruct (typed int_of_str raw) as [x|] eqn:E; [|discriminate].
    destruct (all_typed int_of_str l) as [t'|]; [|discriminate].
    injection H as <-. destruct Hr as [<-|Hr]; [eauto|].
    destruct (IH t' eq_refl r Hr) as (raw' & ? & ?). eauto.
Qed.











(** ** Sorting *)

Section SortFacts.
Context {A : Type} (le : A -> A -> bool).

Lemma insert_by_perm x l : Permutation (x :: l) (insert_by le x l).
Proof.
  induction l as [|h t IH]; simpl; [reflexivity|].
  destruct (le x h); [reflexivity|].
  rewrite perm_swap. now constructor.
Qed.

Lemma sort_by_perm l : Permutation l (sort_by le l).
Proof.
  induction l as [|x l IH]; simpl; [constructor|].
  rewrite <- insert_by_perm. now constructor.
Qed.

Lemma sort_by_length l : List.length (sort_by le l) = List.length l.
Proof. symmetry. apply Permutation_length, sort_by_perm. Qed.

Lemma sort_by_In x l : In x (sort_by le l) <-> In x l.
Proof.
  split; apply Permutation_in; [symmetry|]; apply sort_by_perm.
Qed.

Hypothesis le_total : forall a b, le a b = false -> le b a = true.

Lemma insert_by_sorted x l :
  Sorted (fun a b => le a b = true) l ->
  Sorted (fun a b => le a b = true) (insert_by le x l).
Proof.
  induction 1 as [|h t Hs IH Hh]; simpl.
  - repeat constructor.
  - destruct (le x h) eqn:E.
    + repeat constructor; assumption.
    + constructor; [assumption|].
      destruct Hh as [|b t' Hb]; simpl.
      * constructor. now apply le_total.
      * destruct (le x b); constructor; auto.
Qed.

Lemma sort_by_sorted l : Sorted (fun a b => le a b = true) (sort_by le l).
Proof.
  induction l as [|x l IH]; simpl; [constructor|].
  now apply insert_by_sorted.
Qed.

End SortFacts.

Lemma Sorted_firstn {A} (R : A -> A -> Prop) n l :
  Sorted R l -> Sorted R (firstn n l).
Proof.
  intros H. revert n. induction H as [|a l Hs IH Hh]; intros [|n]; simpl;
    try constructor; auto.
  destruct Hh; destruct n; simpl; constructor; assumption.
Qed.

Lemma Sorted_map {A B} (f : A -> B) (R : B -> B -> Prop) l :
  Sorted (fun a b => R (f a) (f b)) l -> Sorted R (List.map f l).
Proof.
  induction 1 as [|a l Hs IH Hh]; simpl; constructor; auto.
  destruct Hh; simpl; constructor; assumption.
Qed.

Lemma Qle_bool_total a b : Qle_bool a b = false -> Qle_bool b a = true.
Proof.
  intros H. apply Qle_bool_iff.
  destruct (Qlt_le_dec b a) as [Hlt|Hle].
  - now apply Qlt_le_weak.
  - apply Qle_bool_iff in Hle. congruence.
Qed.

Lemma range_from_1 n :
  range 1 (Z.of_nat n + 1) = List.map Z.of_nat (seq 1 n).
Proof.
  unfold range. replace (Z.to_nat (Z.of_nat n + 1 - 1)) with n by lia.
  rewrite <- seq_shift, map_map. apply map_ext. intros i. lia.
Qed.

Lemma range_length a b : List.length (range a b) = Z.to_nat (b - a).
Proof. unfold range. now rewrite length_map, length_seq. Qed.

Lemma combine_columns {A B} (l : list A) (rows : list B) :
  List.length l = List.length rows ->
  List.map fst (combine l rows) = l /\ List.map snd (combine l rows) = rows.
Proof.
  revert rows. induction l as [|z l IH]; intros [|x rows]; simpl;
    try discriminate; auto.
  intros H. destruct (IH rows) as [H1 H2]; [congruence|].
  now rewrite H1, H2.
Qed.

Lemma display_df_columns filtered :
  let rows := head 20 (List.map columns (ranked_df filtered)) in
  List.map fst (display_df filtered)
  = range 1 (Z.of_nat (List.length rows) + 1)
  /\ List.map snd (display_df filtered) = rows.
Proof.
  cbv zeta. unfold display_df. apply combine_columns.
  rewrite range_length. lia.
Qed.

(** ** The store *)

Section StoreFacts.

Variable h0 : heap.

Lemma keeps_weaken {A} (m : M A) (P Q : A -> Prop) :
  (forall a, P a -> Q a) -> keeps h0 m P -> keeps h0 m Q.
Proof.
  intros HPQ Hm h Hh. destruct (Hm h Hh) as [Hu Hr]. split; auto.
Qed.

Lemma keeps_ret {A} (a : A) (Q : A -> Prop) : Q a -> keeps h0 (ret a) Q.
Proof.
  intros Ha h Hh. simpl. split; [assumption|]. intros b E.
  injection E as <-. assumption.
Qed.

Lemma keeps_lift {A} (o : outcome A) : keeps h0 (lift o) (fun _ => True).
Proof. intros h Hh. simpl. auto. Qed.

Lemma keeps_bind {A B} (m : M A) (k : A -> M B) (P : A -> Prop) (Q : B -> Prop) :
  keeps h0 m P -> (forall a, P a -> keeps h0 (k a) Q) -> keeps h0 (bind m k) Q.
Proof.
  intros Hm Hk h Hh. destruct (Hm h Hh) as [Hu Hr]. unfold bind.
  destruct (m h) as [[a| |] h']; simpl in *.
  - apply (Hk a (Hr a eq_refl) h' Hu).
  - split; [assumption|discriminate].
  - split; [assumption|discriminate].
Qed.

Lemma keeps_new o : keeps h0 (new o) (fresh h0).
Proof.
  intros h (ext & ->). unfold new. simpl. split.
  - exists (ext ++ [o]). now rewrite app_assoc.
  - intros r E. injection E as <-. unfold fresh. rewrite length_app. lia.
Qed.

Lemma replace_at_app (h ext : heap) r o :
  (List.length h <= r)%nat ->
  replace_at r o (h ++ ext) = h ++ replace_at (r - List.length h) o ext.
Proof.
  revert r. induction h as [|x h IH]; simpl; intros r Hr.
  - now rewrite Nat.sub_0_r.
  - destruct r as [|r]; [lia|]. simpl. f_equal. apply IH. lia.
Qed.

Lemma keeps_assign r o : fresh h0 r -> keeps h0 (assign r o) (fun _ => True).
Proof.
  intros Hr h (ext & ->). unfold assign. simpl. split; [|auto].
  rewrite (replace_at_app h0 ext r o Hr). now eexists.
Qed.

Lemma keeps_frame_at r : keeps h0 (frame_at r) (fun _ => True).
Proof.
  intros h Hh. unfold frame_at.
  destruct (nth_error h r) as [[t| |]|]; simpl; auto.
Qed.

Lemma keeps_shown_at r : keeps h0 (shown_at r) (fun _ => True).
Proof.
  intros h Hh. unfold shown_at.
  destruct (nth_error h r) as [[t| |]|]; simpl; auto.
Qed.

Lemma keeps_derive r f : keeps h0 (derive r f) (fresh h0).
Proof.
  unfold derive. eapply keeps_bind; [apply keeps_frame_at|].
  intros t _. apply keeps_new.
Qed.

Lemma keeps_derive_or_raise r f : keeps h0 (derive_or_raise r f) (fresh h0).
Proof.
  unfold derive_or_raise. eapply keeps_bind; [apply keeps_frame_at|].
  intros t _. eapply keeps_bind; [apply keeps_lift|].
  intros t' _. apply keeps_new.
Qed.

(** Lines 66 to 240 change no object that was there before them. *)
Lemma page_keeps df w : keeps h0 (page df w) (fun _ => True).
Proof.
  unfold page.
  eapply keeps_bind; [apply keeps_frame_at|]. intros t _.
  eapply keeps_bind; [apply keeps_lift|]. intros bounds _.
  eapply keeps_bind; [apply keeps_lift|]. intros _ _.
  eapply keeps_bind; [apply keeps_derive|]. intros f1 _.
  eapply keeps_bind; [apply keeps_derive|]. intros f2 H2.
  eapply keeps_bind.
  { instantiate (1 := fresh h0).
    destruct (PyStr.eqb (selected_industry w) all_industries);
      [now apply keeps_ret|apply keeps_derive]. }
  intros f3 _.
  eapply keeps_bind; [apply keeps_derive|]. intros f4 H4.
  eapply keeps_bind.
  { instantiate (1 := fresh h0).
    destruct (company_search w);
      [now apply keeps_ret|apply keeps_derive_or_raise]. }
  intros f5 _.
  eapply keeps_bind; [apply keeps_derive|]. intros ranked _.
  eapply keeps_bind; [apply keeps_frame_at|]. intros t' _.
  eapply keeps_bind; [apply keeps_new|]. intros display Hd.
  eapply keeps_bind; [apply keeps_shown_at|]. intros rows _.
  eapply keeps_bind; [now apply keeps_assign|]. intros _ _.
  eapply keeps_bind; [apply keeps_derive|]. intros comparison _.
  eapply keeps_bind; [apply keeps_frame_at|]. intros t'' _.
  eapply keeps_bind; [apply keeps_new|]. intros avg _.
  eapply keeps_bind.
  { instantiate (1 := fun _ => True).
    destruct (company_search w); [now apply keeps_ret|].
    eapply keeps_bind; [apply keeps_derive_or_raise|]. intros m _.
    eapply keeps_bind; [apply keeps_derive|]. intros s _.
    now apply keeps_ret. }
  intros trend _. now apply keeps_ret.
Qed.

End StoreFacts.

Lemma fillna_industry_fields (df : table) :
  Forall2 (fun a b =>
             stock_code b = stock_code a
             /\ company_name b = company_name a
             /\ year b = year a
             /\ index_score b = index_score a
             /\ tech b = tech a
             /\ total_words b = total_words a
             /\ industry_name b
                = Some (match industry_name a with
                        | Some s => s
                        | None => unknown_industry
                        end))
          df (fillna_industry df).
Proof.
  induction df as [|r df IH]; simpl; constructor; auto.
  simpl. repeat split.
Qed.

(** C9. The table that [load_data] returned is changed in place once, by
    the replacement of the empty industries: after the run the object
    [df] holds the table with the sentinel put in, every other field of
    every row as loaded.  Nothing after that line touches an object that
    exists when it starts: the filters, the ranking, the comparison and
    the trend only add objects to the store. *)
Theorem script_store (loaded : table) (w : widgets) :
  (forall (h : heap) (df : ref), exists ext, snd (page df w h) = h ++ ext)
  /\ (exists ext,
        snd (script loaded w []) = DataFrame (fillna_industry loaded) :: ext)
  /\ Forall2 (fun a b =>
                stock_code b = stock_code a
                /\ company_name b = company_name a
                /\ year b = year a
                /\ index_score b = index_score a
                /\ tech b = tech a
                /\ total_words b = total_words a
                /\ industry_name b
                   = Some (match industry_name a with
                           | Some s => s
                           | None => unknown_industry
                           end))
             loaded (fillna_industry loaded).
Proof.
  split; [|split].
  - intros h df. apply (page_keeps h df w h). exists []. now rewrite app_nil_r.
  - unfold script, bind, new, fill_industry, bind, frame_at, assign. simpl.
    destruct (page_keeps [DataFrame (fillna_industry loaded)] 0%nat w
                [DataFrame (fillna_industry loaded)]) as [(ext & E) _].
    { exists []. reflexivity. }
    exists ext.
    destruct (page 0%nat w [DataFrame (fillna_industry loaded)]) as [[a| |] h'];
      simpl in *; exact E.
  - apply fillna_industry_fields.
Qed.

(** What a completed run leaves in the store: the objects bound to
    [filtered_df], [display_df], [industry_avg] and [trend_df] are those
    the functions above compute from the table in [df]. *)
Lemma script_computes (loaded : table) (w : widgets) (n : names) (h : heap) :
  script loaded w [] = (Returns n, h) ->
  let df := fillna_industry loaded in
  nth_error h (n_df n) = Some (DataFrame df)
  /\ (exists out,
        filtered_df df w = Returns out
        /\ nth_error h (n_filtered_df n) = Some (DataFrame out)
        /\ nth_error h (n_display_df n)
           = Some (Shown (List.map snd (display_df out))
                         (Some (List.map fst (display_df out)))))
  /\ nth_error h (n_industry_avg n)
     = Some (Series (industry_avg df (selected_year w)))
  /\ match n_trend_df n with
     | None => company_search w = []
     | Some r =>
         exists t, trend_df df (company_search w) = Returns t
                   /\ nth_error h r = Some (DataFrame t)
     end.
Proof.
  cbv zeta. unfold script, fill_industry, page.
  unfold bind at 1. unfold new at 1. cbn [List.length app].
  unfold bind at 1. unfold bind at 1. unfold frame_at at 1. cbn [nth_error].
  unfold assign at 1. cbn [replace_at].
  set (df := fillna_industry loaded).
  unfold filtered_df, by_search, by_industry, trend_df, contains_mask,
    industry_avg, industry_comparison, derive, derive_or_raise.
  unfold bind at 1. unfold frame_at at 1. cbn [nth_error].
  unfold bind at 1. unfold lift at 1.
  destruct (default_range df) as [rg| |]; try discriminate.
  unfold bind at 1. unfold lift at 1.
  destruct (slider rg) as [[]| |]; try discriminate.
  destruct (PyStr.eqb (selected_industry w) all_industries);
    destruct (company_search w) as [|c pat];
    try destruct (matcher (c :: pat)) as [p|];
    cbn -[head range sort_by group_mean List.filter display_df];
    intros H; try discriminate; injection H as <- <-;
    cbn -[head range sort_by group_mean List.filter display_df];
    (split; [reflexivity|]); (split; [|split; [reflexivity|]]);
    try reflexivity; try (eexists; split; reflexivity);
    (eexists; split; [reflexivity|]); (split; [reflexivity|]);
    match goal with
    | |- context [display_df ?t] =>
        destruct (display_df_columns t) as [-> ->]
    end; reflexivity.
Qed.

(** ** The ranking table *)

Lemma ranked_df_sorted filtered :
  Sorted (fun a b => (index_score b <= index_score a)%Q) (ranked_df filtered).
Proof.
  unfold ranked_df.
  assert (Sorted (fun a b => score_desc a b = true) (sort_by score_desc filtered)) as H.
  { apply sort_by_sorted. intros a b. apply Qle_bool_total. }
  induction H as [|a l Hs IH Hh]; constructor; auto.
  destruct Hh as [|b l Hb]; constructor. now apply Qle_bool_iff.
Qed.

(** C5. The ranking table has at most 20 records: the first 20, or all
    if fewer, of the filtered records put in descending order of their
    index score, each with its stock code, company name, industry,
    index score and word count; the rank column is 1, 2, ..., up to the
    number of records, in that order. *)
Theorem display_df_ranked (filtered : table) :
  let shown := display_df filtered in
  exists ranked,
    Permutation ranked filtered
    /\ Sorted (fun a b => (index_score b <= index_score a)%Q) ranked
    /\ List.map snd shown
       = List.map (fun r => Listing (stock_code r) (company_name r)
                                    (industry_name r) (index_score r)
                                    (total_words r))
                  (firstn 20 ranked)
    /\ List.map fst shown = List.map Z.of_nat (seq 1 (List.length shown))
    /\ (List.length shown <= 20)%nat
    /\ List.length shown = Nat.min 20 (List.length filtered).
Proof.
  cbv zeta. exists (ranked_df filtered).
  destruct (display_df_columns filtered) as [Hfst Hsnd]. unfold head in *.
  assert (List.length (display_df filtered)
          = Nat.min 20 (List.length filtered)) as Hlen.
  { rewrite <- (length_map snd), Hsnd, length_firstn, length_map.
    unfold ranked_df. now rewrite sort_by_length. }
  split; [symmetry; apply sort_by_perm|].
  split; [apply ranked_df_sorted|].
  split; [rewrite Hsnd, firstn_map; reflexivity|].
  split.
  - rewrite Hfst, <- range_from_1. do 3 f_equal.
    now rewrite <- Hsnd, length_map.
  - rewrite Hlen. split; [apply Nat.le_min_l|reflexivity].
Qed.

(** ** The industry comparison *)


Lemma value_desc_total a b : value_desc a b = false -> value_desc b a = true.
Proof.
  unfold value_desc. destruct (snd a), (snd b); try congruence.
  apply Qle_bool_total.
Qed.

Lemma keys_In t k :
  In k (keys t) <-> exists r, In r t /\ industry_name r = Some k.
Proof.
  unfold keys. rewrite sort_by_In, nodup_In, in_flat_map. split.
  - intros (r & Hr & Hk). exists r. split; [assumption|].
    destruct (industry_name r); simpl in Hk; [|contradiction].
    destruct Hk as [->|[]]. reflexivity.
  - intros (r & Hr & Hk). exists r. split; [assumption|].
    rewrite Hk. now left.
Qed.

Lemma keys_NoDup t : NoDup (keys t).
Proof.
  unfold keys. eapply Permutation_NoDup; [apply sort_by_perm|].
  apply NoDup_nodup.
Qed.

Lemma in_industry_iff k r : in_industry k r = true <-> industry_name r = Some k.
Proof.
  unfold in_industry. destruct (industry_name r) as [s|].
  - rewrite eqb_eq. split; congruence.
  - split; discriminate.
Qed.

Lemma series_mean_defined l : l <> [] -> exists m, series_mean l = Some m.
Proof. destruct l; [congruence|]. simpl. eauto. Qed.

Lemma group_mean_defined t k m :
  In (k, m) (group_mean t) -> exists x, m = Some x.
Proof.
  unfold group_mean. rewrite in_map_iff. intros (k' & E & Hk).
  injection E as -> <-.
  apply keys_In in Hk as (r & Hr & Hk).
  destruct (series_mean_defined
              (scores (List.filter (in_industry k) t))) as (x & Hx); [|eauto].
  assert (In r (List.filter (in_industry k) t)) as Hin.
  { apply filter_In. split; [assumption|]. now apply in_industry_iff. }
  unfold scores. intros E. apply map_eq_nil in E. rewrite E in Hin. contradiction.
Qed.



(** ** Patterns *)

#[local] Hint Constructors lang : core.

Lemma nullable_lang r : nullable r = true <-> lang r [].
Proof.
  split.
  - induction r; simpl; intros H; try discriminate; auto.
    + apply andb_prop in H as [H1 H2].
      apply (L_cat r1 r2 [] []); auto.
    + apply orb_prop in H as [H|H]; auto.
  - intros H. remember [] as w eqn:Ew.
    induction H; simpl; try discriminate; auto.
    + apply app_eq_nil in Ew as [-> ->]. now rewrite IHlang1, IHlang2.
    + now rewrite IHlang.
    + rewrite IHlang by assumption. apply orb_true_r.
Qed.

Lemma deriv_sound x r s : lang (deriv x r) s -> lang r (x :: s).
Proof.
  revert s. induction r; simpl; intros s H.
  - inversion H.
  - inversion H.
  - destruct (same_ci c x) eqn:E; inversion H; subst. auto.
  - destruct (x =? 10)%N eqn:E; inversion H; subst.
    constructor. now apply N.eqb_neq.
  - destruct (nullable r1) eqn:E.
    + inversion H; subst.
      * match goal with H' : lang (Cat _ _) _ |- _ => inversion H'; subst end.
        apply (L_cat r1 r2 (x :: u) v); auto.
      * apply (L_cat r1 r2 [] (x :: s)); auto.
        now apply nullable_lang.
    + inversion H; subst.
      apply (L_cat r1 r2 (x :: u) v); auto.
  - inversion H; subst; auto.
  - inversion H; subst.
    apply (L_star_app r (x :: u) v); auto.
Qed.

Lemma deriv_complete x r s : lang r (x :: s) -> lang (deriv x r) s.
Proof.
  intros H. remember (x :: s) as w eqn:Ew. revert s Ew.
  induction H; intros s Ew; simpl; try discriminate.
  - injection Ew as ? ?; subst. rewrite H. auto.
  - injection Ew as ? ?; subst.
    destruct (x =? 10)%N eqn:E; auto. apply N.eqb_eq in E. contradiction.
  - destruct u as [|y u]; simpl in Ew.
    + subst v. apply nullable_lang in H. rewrite H. auto.
    + injection Ew as ? ?; subst.
      destruct (nullable r1); auto.
  - auto.
  - auto.
  - destruct u as [|y u]; simpl in Ew.
    + subst v. now apply IHlang2.
    + injection Ew as ? ?; subst. auto.
Qed.

Lemma deriv_lang x r s : lang (deriv x r) s <-> lang r (x :: s).
Proof. split; [apply deriv_sound|apply deriv_complete]. Qed.

(** [match_here] finds the prefixes in the language. *)
Lemma match_here_lang r s :
  match_here r s = true <-> exists u v, s = u ++ v /\ lang r u.
Proof.
  revert r. induction s as [|x s IH]; intros r; simpl.
  - rewrite orb_false_r, nullable_lang. split.
    + intros H. now exists [], [].
    + intros (u & v & E & H). symmetry in E.
      apply app_eq_nil in E as [-> _]. assumption.
  - rewrite orb_true_iff, nullable_lang, IH. split.
    + intros [H|(u & v & -> & H)].
      * now exists [], (x :: s).
      * exists (x :: u), v. split; [reflexivity|]. now apply deriv_lang.
    + intros (u & v & E & H). destruct u as [|y u]; simpl in E.
      * now left.
      * injection E as <- ->. right. exists u, v.
        split; [reflexivity|]. now apply deriv_lang.
Qed.

(** [search] finds the factors in the language. *)
Lemma search_lang r s :
  search r s = true <-> exists a u b, s = a ++ u ++ b /\ lang r u.
Proof.
  induction s as [|x s IH]; cbn [search].
  - rewrite orb_false_r, match_here_lang. split.
    + intros (u & v & E & H). now exists [], u, v.
    + intros (a & u & b & E & H). symmetry in E.
      apply app_eq_nil in E as [-> E]. eauto.
  - rewrite orb_true_iff, match_here_lang, IH. split.
    + intros [(u & v & E & H)|(a & u & b & -> & H)].
      * now exists [], u, v.
      * now exists (x :: a), u, b.
    + intros (a & u & b & E & H). destruct a as [|y a]; simpl in E.
      * left. eauto.
      * injection E as <- ->. right. eauto.
Qed.

(** A text without special characters compiles to the sequence of its
    characters. *)
Lemma is_meta_cases c :
  is_meta c = false ->
  (c =? 40)%N = false /\ (c =? 41)%N = false /\ (c =? 124)%N = false
  /\ ((c =? 42) || (c =? 43) || (c =? 63))%N = false
  /\ (c =? 92)%N = false /\ (c =? 46)%N = false.
Proof.
  unfold is_meta. simpl. intros H.
  repeat (apply orb_false_elim in H as [? H]).
  repeat split; auto.
  repeat (apply orb_false_intro); assumption.
Qed.

Lemma parse_plain p top outer rep :
  plain p = true ->
  parse p top outer rep
  = parse [] (Level (closed top) (rev (List.map Chr p) ++ atoms top)) outer rep.
Proof.
  revert top rep. induction p as [|c p IH]; intros top rep Hp.
  - now destruct top.
  - unfold plain in Hp. simpl in Hp. apply andb_prop in Hp as [Hc Hp].
    apply negb_true_iff in Hc.
    destruct (is_meta_cases c Hc) as (H1 & H2 & H3 & H4 & H5 & H6).
    cbn [parse]. rewrite H1, H2, H3, H4, H5, H6, Hc.
    rewrite (IH (push (Chr c) top) false Hp). simpl.
    now rewrite <- app_assoc.
Qed.

Lemma compile_plain p :
  plain p = true -> compile p = Pattern (cat_of (List.map Chr p)).
Proof.
  intros Hp. unfold compile. rewrite (parse_plain p level0 [] false Hp).
  simpl. unfold close. simpl. now rewrite app_nil_r, rev_involutive.
Qed.

Lemma lang_chars p u :
  lang (cat_of (List.map Chr p)) u <->
  Forall2 (fun c x => same_ci c x = true) p u.
Proof.
  revert u. induction p as [|c p IH]; simpl; intros u.
  - split; intros H; inversion H; constructor.
  - split; intros H.
    + inversion H as [| | |? ? u1 u2 H1 H2| | | |]; subst.
      inversion H1; subst. simpl. constructor; [assumption|]. now apply IH.
    + inversion H as [|? x ? u' Hc Hu]; subst.
      apply (L_cat (Chr c) _ [x] u'); [now constructor|]. now apply IH.
Qed.

Lemma prefix_ci_spec p s :
  prefix_ci p s = true <->
  exists u v, s = u ++ v /\ Forall2 (fun c x => same_ci c x = true) p u.
Proof.
  revert s. induction p as [|c p IH]; intros s; simpl.
  - split; [|reflexivity]. intros _. exists [], s. split; [reflexivity|constructor].
  - destruct s as [|x s].
    + split; [discriminate|]. intros (u & v & E & H).
      inversion H; subst. discriminate.
    + rewrite andb_true_iff, IH. split.
      * intros (Hc & u & v & -> & H). exists (x :: u), v.
        split; [reflexivity|]. now constructor.
      * intros (u & v & E & H). inversion H as [|? y ? u' Hc Hu]; subst.
        injection E as <- ->. eauto.
Qed.

Lemma icontains_spec p s :
  icontains p s = true <->
  exists a u b, s = a ++ u ++ b
                /\ Forall2 (fun c x => same_ci c x = true) p u.
Proof.
  induction s as [|x s IH]; cbn [icontains].
  - rewrite orb_false_r, prefix_ci_spec. split.
    + intros (u & v & E & H). now exists [], u, v.
    + intros (a & u & b & E & H). symmetry in E.
      apply app_eq_nil in E as [-> E]. eauto.
  - rewrite orb_true_iff, prefix_ci_spec, IH. split.
    + intros [(u & v & E & H)|(a & u & b & -> & H)].
      * now exists [], u, v.
      * now exists (x :: a), u, b.
    + intros (a & u & b & E & H). destruct a as [|y a]; simpl in E.
      * left. eauto.
      * injection E as <- ->. right. eauto.
Qed.

(** On a text without special characters the compiled pattern searches
    for the text itself, letter case apart. *)
Lemma search_plain p s :
  plain p = true ->
  search (cat_of (List.map Chr p)) s = icontains p s.
Proof.
  intros Hp. apply eq_true_iff_eq.
  rewrite search_lang, icontains_spec.
  split; intros (a & u & b & E & H); exists a, u, b; split; auto;
    now apply lang_chars.
Qed.


(** ** The search box *)

Lemma same_ci_casefold p u :
  Forall2 (fun c x => same_ci c x = true) p u <-> casefold p = casefold u.
Proof.
  unfold casefold, same_ci. split.
  - induction 1 as [|c x p u Hc _ IH]; simpl; [reflexivity|].
    apply N.eqb_eq in Hc. congruence.
  - revert u. induction p as [|c p IH]; intros [|x u] H; simpl in H;
      try discriminate; constructor.
    + apply N.eqb_eq. congruence.
    + apply IH. congruence.
Qed.

(** [icontains p s]: [p] occurs in [s] once both are put in lower case. *)
Lemma icontains_casefold p s :
  icontains p s = true <-> exists a b, casefold s = a ++ casefold p ++ b.
Proof.
  rewrite icontains_spec. split.
  - intros (a & u & b & -> & H). apply same_ci_casefold in H.
    exists (casefold a), (casefold b). unfold casefold in *.
    now rewrite !map_app, H.
  - intros (a' & b' & E). unfold casefold in E.
    apply map_eq_app in E as (a & ub & -> & <- & E).
    apply map_eq_app in E as (u & b & -> & E & <-).
    exists a, u, b. split; [reflexivity|]. apply same_ci_casefold.
    unfold casefold. congruence.
Qed.

Lemma matcher_plain p :
  plain p = true -> matcher p = Some (search (cat_of (List.map Chr p))).
Proof. intros Hp. unfold matcher. now rewrite (compile_plain _ Hp). Qed.

(** On a text without special characters a row is hit exactly when its
    name or its code contains the text, letter case apart. *)
Lemma hit_plain p r :
  plain p = true ->
  hit (search (cat_of (List.map Chr p))) r
  = icontains p (company_name r) || icontains p (stock_code r).
Proof. intros Hp. unfold hit. now rewrite !(search_plain _ _ Hp). Qed.

(** ** The filter chain *)

Lemma filter_twice {A} (p q : A -> bool) l :
  List.filter q (List.filter p l) = List.filter (fun x => p x && q x) l.
Proof.
  induction l as [|x l IH]; simpl; [reflexivity|].
  destruct (p x); simpl; [destruct (q x)|]; now rewrite IH.
Qed.

Lemma in_range_iff rg r :
  in_range rg r = true <->
  (inject_Z (fst rg) <= index_score r /\ index_score r <= inject_Z (snd rg))%Q.
Proof.
  unfold in_range. now rewrite andb_true_iff, !Qle_bool_iff.
Qed.

Lemma by_industry_filter name t :
  by_industry name t =
  List.filter (fun r => PyStr.eqb name all_industries || in_industry name r) t.
Proof.
  unfold by_industry. destruct (PyStr.eqb name all_industries); simpl.
  - induction t as [|x t IH]; simpl; congruence.
  - reflexivity.
Qed.

(** The rows the three value filters keep. *)
Lemma value_filters df w :
  List.filter (in_range (index_range w))
    (by_industry (selected_industry w)
       (List.filter (in_year (selected_year w)) df))
  = List.filter
      (fun r => in_year (selected_year w) r
                && (PyStr.eqb (selected_industry w) all_industries
                    || in_industry (selected_industry w) r)
                && in_range (index_range w) r) df.
Proof.
  rewrite by_industry_filter.
  rewrite (filter_twice (in_year (selected_year w))). rewrite filter_twice.
  reflexivity.
Qed.

(** C1. The filter chain returns a table exactly when the search text
    is empty or a valid pattern, and raises the error of the pattern
    compiler otherwise.  The table it returns is the input with the rows
    failing some active predicate taken out: order and repetitions are
    kept, and a row is in the result exactly when it is in the input,
    is of the selected year, is of the selected industry unless all
    industries are selected, has its score in the range, bounds
    included, and is hit by the search unless the search text is empty;
    for a text without special characters the search hits the rows
    whose name or code contains the text, letter case apart. *)
Theorem filtered_df_exact (df : table) (w : widgets) :
  ((exists out, filtered_df df w = Returns out) <->
   (company_search w = []
    \/ exists p, matcher (company_search w) = Some p))
  /\ (company_search w <> [] -> matcher (company_search w) = None ->
      filtered_df df w = Raises ReError)
  /\ (forall out, filtered_df df w = Returns out ->
       (exists keep, out = List.filter keep df)
       /\ forall r,
            In r out <->
            In r df
            /\ year r = selected_year w
            /\ (selected_industry w = all_industries
                \/ industry_name r = Some (selected_industry w))
            /\ (inject_Z (fst (index_range w)) <= index_score r
                /\ index_score r <= inject_Z (snd (index_range w)))%Q
            /\ (company_search w = []
                \/ exists p, matcher (company_search w) = Some p
                             /\ (p (company_name r) = true
                                 \/ p (stock_code r) = true)))
  /\ (company_search w <> [] -> plain (company_search w) = true ->
      filtered_df df w
      = Returns
          (List.filter
             (fun r =>
                (year r =? selected_year w)
                && (PyStr.eqb (selected_industry w) all_industries
                    || match industry_name r with
                       | Some s => PyStr.eqb s (selected_industry w)
                       | None => false
                       end)
                && (Qle_bool (inject_Z (fst (index_range w))) (index_score r)
                    && Qle_bool (index_score r) (inject_Z (snd (index_range w))))
                && (icontains (company_search w) (company_name r)
                    || icontains (company_search w) (stock_code r)))
             df)).
Proof.
  unfold filtered_df. rewrite value_filters.
  set (keep := fun r => _ && _ && _).
  assert (forall r, keep r = true <->
            year r = selected_year w
            /\ (selected_industry w = all_industries
                \/ industry_name r = Some (selected_industry w))
            /\ (inject_Z (fst (index_range w)) <= index_score r
                /\ index_score r <= inject_Z (snd (index_range w)))%Q) as Hkeep.
  { intros r. unfold keep, in_year.
    rewrite !andb_true_iff, orb_true_iff, Z.eqb_eq, eqb_eq,
      in_industry_iff, in_range_iff. tauto. }
  unfold by_search, contains_mask.
  destruct (company_search w) as [|c pat] eqn:Es.
  - split; [split; eauto|]. split; [congruence|]. split; [|congruence].
    intros out H. injection H as <-. split; [eauto|].
    intros r. rewrite filter_In, Hkeep. intuition.
  - destruct (matcher (c :: pat)) as [p|] eqn:Em.
    + split; [split; eauto|]. split; [discriminate|]. split.
      * intros out H. injection H as <-. rewrite filter_twice.
        split; [eauto|].
        intros r. rewrite filter_In, andb_true_iff, Hkeep.
        unfold hit. rewrite orb_true_iff. split.
        -- intros (Hin & Hk & Hh). repeat split; try tauto.
           right. exists p. auto.
        -- intros (Hin & Hy & Hi & Hr & [Hs|(p' & E & Hh)]); [discriminate|].
           injection E as <-. tauto.
      * intros _ Hp. rewrite (matcher_plain _ Hp) in Em. injection Em as <-.
        rewrite filter_twice. f_equal. apply filter_ext. intros r.
        rewrite <- (hit_plain (c :: pat) r Hp). reflexivity.
    + split.
      { split; [intros (out & H); discriminate|].
        intros [H|(p & H)]; discriminate. }
      split; [reflexivity|]. split; [intros out H; discriminate|].
      intros _ Hp. rewrite (matcher_plain _ Hp) in Em. discriminate.
Qed.

(** C2. For a search text that is not empty and has no character special
    in a pattern, the search step of the filter keeps exactly the rows
    whose company name or stock code contains the text, letter case
    apart: the folded text occurs in the folded name or in the folded
    code. *)
Theorem by_search_plain (t : table) (pat : pystr) :
  pat <> [] -> plain pat = true ->
  by_search pat t
  = Returns (List.filter
               (fun r => icontains pat (company_name r)
                         || icontains pat (stock_code r)) t)
  /\ forall r out,
       by_search pat t = Returns out ->
       (In r out <->
        In r t
        /\ ((exists a b,
               List.map fold (company_name r) = a ++ List.map fold pat ++ b)
            \/ (exists a b,
                  List.map fold (stock_code r) = a ++ List.map fold pat ++ b))).
Proof.
  intros Hne Hp.
  assert (by_search pat t
          = Returns (List.filter
                       (fun r => icontains pat (company_name r)
                                 || icontains pat (stock_code r)) t)) as E.
  { unfold by_search, contains_mask. destruct pat as [|c pat]; [congruence|].
    rewrite (matcher_plain _ Hp). f_equal. apply filter_ext. intros r.
    apply (hit_plain _ r Hp). }
  split; [exact E|]. intros r out Hout. rewrite E in Hout.
  injection Hout as <-.
  rewrite filter_In, orb_true_iff, !icontains_casefold. reflexivity.
Qed.

(** ** The slider *)

Lemma py_int_below q : (0 <= q)%Q -> (inject_Z (py_int q) <= q)%Q.
Proof.
  destruct q as [n d]. unfold Qle, py_int. simpl. intros H.
  rewrite Z.mul_1_r in H.
  rewrite Z.quot_div_nonneg by lia.
  rewrite Z.mul_1_r, Z.mul_comm. apply Z.mul_div_le. lia.
Qed.

Lemma py_int_strictly_below q :
  (0 <= q)%Q -> (forall z, ~ (q == inject_Z z)%Q) ->
  (inject_Z (py_int q) < q)%Q.
Proof.
  intros H Hn.
  destruct (Qle_lt_or_eq _ _ (py_int_below q H)) as [Hlt|Heq]; [assumption|].
  exfalso. apply (Hn (py_int q)). now symmetry.
Qed.

Lemma series_max_In l m : series_max l = Some m -> In m l.
Proof.
  revert m. induction l as [|x l IH]; simpl; intros m H; [discriminate|].
  destruct (series_max l) as [m'|].
  - injection H as <-. destruct (Qle_bool m' x); auto.
  - injection H as <-. auto.
Qed.

Lemma series_max_upper l m x :
  series_max l = Some m -> In x l -> (x <= m)%Q.
Proof.
  revert m. induction l as [|y l IH]; simpl; intros m H Hx; [contradiction|].
  destruct (series_max l) as [m'|] eqn:E.
  - injection H as <-.
    destruct (Qle_bool m' y) eqn:C.
    + apply Qle_bool_iff in C. destruct Hx as [<-|Hx]; [apply Qle_refl|].
      eapply Qle_trans; [apply (IH m' eq_refl Hx)|assumption].
    + destruct Hx as [<-|Hx]; [|now apply IH].
      apply Qle_bool_total in C. now apply Qle_bool_iff.
  - injection H as <-. destruct Hx as [<-|Hx]; [apply Qle_refl|].
    destruct l; [contradiction|]. simpl in E.
    destruct (series_max l); discriminate.
Qed.

Lemma default_range_bounds df lo hi :
  default_range df = Returns (lo, hi) ->
  exists a b, series_min (scores df) = Some a /\ lo = py_int a
              /\ series_max (scores df) = Some b /\ hi = py_int b.
Proof.
  unfold default_range, min_index, max_index.
  destruct (series_min (scores df)) as [a|]; [|discriminate].
  destruct (series_max (scores df)) as [b|]; [|discriminate].
  intros H. injection H as <- <-. eauto 6.
Qed.

(** [int] of a float is its floor from zero up, its ceiling below. *)
Lemma py_int_cases q :
  py_int q = if 0 <=? Qnum q then Qfloor q else Qceiling q.
Proof.
  destruct q as [n d]. unfold py_int, Qceiling, Qfloor. simpl.
  destruct (0 <=? n) eqn:E.
  - apply Z.leb_le in E. apply Z.quot_div_nonneg; lia.
  - apply Z.leb_gt in E.
    rewrite <- (Z.opp_involutive n) at 1. rewrite Z.quot_opp_l by lia.
    f_equal. apply Z.quot_div_nonneg; lia.
Qed.

Lemma py_int_inject z : py_int (inject_Z z) = z.
Proof. unfold py_int. simpl. apply Z.quot_1_r. Qed.

Lemma py_int_whole q z : (q == inject_Z z)%Q -> py_int q = z.
Proof.
  destruct q as [n d]. unfold Qeq, py_int. simpl. intros H.
  rewrite Z.mul_1_r in H. subst n. apply Z.quot_mul. lia.
Qed.

Lemma py_int_mono a b : (a <= b)%Q -> py_int a <= py_int b.
Proof.
  intros H. rewrite !py_int_cases.
  destruct (0 <=? Qnum a) eqn:Ea, (0 <=? Qnum b) eqn:Eb.
  - now apply Qfloor_resp_le.
  - exfalso. apply Z.leb_le in Ea. apply Z.leb_gt in Eb.
    destruct a as [n1 d1], b as [n2 d2]. unfold Qle in H. simpl in *. nia.
  - apply Z.le_trans with 0.
    + change 0 with (Qceiling 0). apply Qceiling_resp_le.
      apply Z.leb_gt in Ea. destruct a as [n1 d1]. unfold Qle. simpl in *. lia.
    + change 0 with (Qfloor 0). apply Qfloor_resp_le.
      apply Z.leb_le in Eb. destruct b as [n2 d2]. unfold Qle. simpl in *. lia.
  - now apply Qceiling_resp_le.
Qed.

Lemma series_min_In l m : series_min l = Some m -> In m l.
Proof.
  revert m. induction l as [|x l IH]; simpl; intros m H; [discriminate|].
  destruct (series_min l) as [m'|].
  - injection H as <-. destruct (Qle_bool x m'); auto.
  - injection H as <-. auto.
Qed.

Lemma series_min_lower l m x :
  series_min l = Some m -> In x l -> (m <= x)%Q.
Proof.
  revert m. induction l as [|y l IH]; simpl; intros m H Hx; [contradiction|].
  destruct (series_min l) as [m'|] eqn:E.
  - injection H as <-.
    destruct (Qle_bool y m') eqn:C.
    + apply Qle_bool_iff in C. destruct Hx as [<-|Hx]; [apply Qle_refl|].
      eapply Qle_trans; [eassumption|]. now apply IH.
    + destruct Hx as [<-|Hx]; [|now apply IH].
      apply Qle_bool_total in C. now apply Qle_bool_iff.
  - injection H as <-. destruct Hx as [<-|Hx]; [apply Qle_refl|].
    destruct l; [contradiction|]. simpl in E.
    destruct (series_min l); discriminate.
Qed.

Lemma py_int_Qeq a b : (a == b)%Q -> py_int a = py_int b.
Proof.
  intros E. apply Z.le_antisymm; apply py_int_mono; rewrite E; apply Qle_refl.
Qed.

(** The rows of the least and of the greatest score behind the bounds. *)
Lemma default_range_rows df lo hi :
  default_range df = Returns (lo, hi) ->
  exists rmin rmax,
    In rmin df /\ In rmax df
    /\ lo = py_int (index_score rmin) /\ hi = py_int (index_score rmax)
    /\ forall r, In r df ->
         (index_score rmin <= index_score r
          /\ index_score r <= index_score rmax)%Q.
Proof.
  intros H.
  destruct (default_range_bounds df lo hi H) as (a & b & Ha & -> & Hb & ->).
  apply series_min_In in Ha as Hina. apply series_max_In in Hb as Hinb.
  unfold scores in Hina, Hinb.
  apply in_map_iff in Hina as (rmin & <- & Hmin).
  apply in_map_iff in Hinb as (rmax & <- & Hmax).
  exists rmin, rmax. repeat split; auto.
  - apply (series_min_lower (scores df)); [assumption|now apply in_map].
  - apply (series_max_upper (scores df)); [assumption|now apply in_map].
Qed.

(** C10. The slider's bounds, and its default value, are the least and
    the greatest score of the table cut to integers.  With the range at
    its widest a row whose score is above the cut greatest score is
    filtered out whatever the other widgets say; so is every row of the
    greatest score when that score is positive and not an integer; and
    there is such a table, of two records of one year, where the filter
    with all industries and no search text drops the record of score
    85.7. *)
Theorem default_range_cuts_maximum :
  (forall df lo hi,
      default_range df = Returns (lo, hi) ->
      exists rmin rmax,
        In rmin df /\ In rmax df
        /\ lo = py_int (index_score rmin) /\ hi = py_int (index_score rmax)
        /\ forall r, In r df ->
             (index_score rmin <= index_score r
              /\ index_score r <= index_score rmax)%Q)
  /\ (forall df w lo hi out r,
        default_range df = Returns (lo, hi) ->
        index_range w = (lo, hi) ->
        filtered_df df w = Returns out ->
        In r df ->
        (inject_Z hi < index_score r)%Q ->
        ~ In r out)
  /\ (forall df w out r,
        default_range df = Returns (index_range w) ->
        filtered_df df w = Returns out ->
        In r df ->
        (forall r', In r' df -> index_score r' <= index_score r)%Q ->
        (0 <= index_score r)%Q ->
        (forall z, ~ (index_score r == inject_Z z)%Q) ->
        ~ In r out)
  /\ (let low := Row (txt "000002") (txt "Bolt") 2020 (Some (txt "Tech"))
                     10%Q [] None in
      let top := Row (txt "000001") (txt "Acme") 2020 (Some (txt "Tech"))
                     (857 # 10) [] None in
      let w := Widgets 2020 all_industries (10, 85) [] in
      default_range [low; top] = Returns (index_range w)
      /\ filtered_df [low; top] w = Returns [low]).
Proof.
  assert (forall df w lo hi out r,
      default_range df = Returns (lo, hi) ->
      index_range w = (lo, hi) ->
      filtered_df df w = Returns out ->
      In r df ->
      (inject_Z hi < index_score r)%Q ->
      ~ In r out) as Hcut.
  { intros df w lo hi out r _ Hw Hf _ Hlt Hin.
    unfold filtered_df in Hf. rewrite value_filters in Hf.
    assert (in_range (index_range w) r = true) as Hr.
    { unfold by_search, contains_mask in Hf.
      destruct (company_search w).
      - injection Hf as <-. apply filter_In in Hin as [_ Hk].
        now apply andb_prop in Hk as [_ Hk].
      - destruct (matcher _); [|discriminate]. injection Hf as <-.
        apply filter_In in Hin as [Hin _]. apply filter_In in Hin as [_ Hk].
        now apply andb_prop in Hk as [_ Hk]. }
    apply in_range_iff in Hr as [_ Hle]. rewrite Hw in Hle. simpl in Hle.
    apply (Qlt_irrefl (inject_Z hi)). eapply Qlt_le_trans; eassumption. }
  split; [apply default_range_rows|]. split; [exact Hcut|]. split.
  - intros df w out r Hd Hf Hr Hmax Hpos Hfrac Hin.
    destruct (index_range w) as [lo hi] eqn:Ew.
    destruct (default_range_rows df lo hi Hd)
      as (rmin & rmax & _ & Hrmax & _ & -> & Hb).
    refine (Hcut df w lo _ out r Hd Ew Hf Hr _ Hin).
    assert (index_score rmax == index_score r)%Q as E.
    { apply Qle_antisym; [now apply Hmax|now apply Hb]. }
    rewrite (py_int_Qeq _ _ E). now apply py_int_strictly_below.
  - cbv zeta. split; reflexivity.
Qed.

(** ** The summary cards *)

Lemma series_min_defined l : l <> [] -> exists m, series_min l = Some m.
Proof.
  destruct l as [|x l]; [congruence|]. intros _. simpl.
  destruct (series_min l); eauto.
Qed.

Lemma series_max_defined l : l <> [] -> exists m, series_max l = Some m.
Proof.
  destruct l as [|x l]; [congruence|]. intros _. simpl.
  destruct (series_max l); eauto.
Qed.

(** C6. For the empty table the count card shows 0 and the mean, maximum
    and minimum cards are left blank: no number and no text is put in
    them.  For a table of one row the mean, the greatest and the least
    score are that row's score, the mean of one float being that float;
    the cards show the mean with one decimal and the other two cut to
    integers.  On a table that is not empty the three aggregates are
    defined, the mean as pandas computes it, the other two a greatest
    and a least score, so neither the text N/A nor the number 0 ever
    stands for a missing one. *)
Theorem metrics_spec :
  metrics [] = Cards (Number 0) Blank Blank Blank
  /\ ((forall x, fmean [x] == x)%Q ->
      forall r : row,
        exists m,
          avg_index [r] = Some m
          /\ (m == index_score r)%Q
          /\ top_score [r] = Some (index_score r)
          /\ low_score [r] = Some (index_score r)
          /\ metrics [r] = Cards (Number 1) (Text (fmt1 m))
                                 (Number (py_int (index_score r)))
                                 (Number (py_int (index_score r))))
  /\ (forall (r : row) (t : table),
        exists hi lo,
          top_score (r :: t) = Some hi
          /\ low_score (r :: t) = Some lo
          /\ In hi (List.map index_score (r :: t))
          /\ In lo (List.map index_score (r :: t))
          /\ (forall q, In q (List.map index_score (r :: t)) ->
                (lo <= q /\ q <= hi)%Q)
          /\ metrics (r :: t)
             = Cards (Number (Z.of_nat (List.length (r :: t))))
                     (Text (fmt1 (fmean (List.map index_score (r :: t)))))
                     (Number (py_int hi)) (Number (py_int lo))).
Proof.
  split; [reflexivity|]. split.
  - intros Hone r. exists (fmean [index_score r]). repeat split. apply Hone.
  - intros r t.
    destruct (series_max_defined (scores (r :: t))) as (hi & Hhi); [discriminate|].
    destruct (series_min_defined (scores (r :: t))) as (lo & Hlo); [discriminate|].
    exists hi, lo. unfold metrics, avg_index, top_score, low_score.
    rewrite Hhi, Hlo. repeat split.
    + now apply series_max_In.
    + now apply series_min_In.
    + now apply (series_min_lower (scores (r :: t))).
    + now apply (series_max_upper (scores (r :: t))).
Qed.

(** ** The company trend *)

(** On a text without special characters the trend table holds every row
    of the table, of any year and company, whose name or code contains
    the text, by ascending year. *)
Lemma trend_df_plain df pat :
  plain pat = true ->
  trend_df df pat
  = Returns (sort_by year_asc
               (List.filter
                  (fun r => icontains pat (company_name r)
                            || icontains pat (stock_code r)) df)).
Proof.
  intros Hp. unfold trend_df, contains_mask. rewrite (matcher_plain _ Hp).
  do 2 f_equal. apply filter_ext. intros r. apply (hit_plain _ r Hp).
Qed.

Lemma year_asc_total a b : year_asc a b = false -> year_asc b a = true.
Proof. unfold year_asc. rewrite Z.leb_gt, Z.leb_le. lia. Qed.

Lemma trend_df_sorted df pat t :
  trend_df df pat = Returns t ->
  Sorted (fun a b => year a <= year b) t.
Proof.
  unfold trend_df. destruct (contains_mask pat df); try discriminate.
  intros H. injection H as <-.
  assert (Sorted (fun a b => year_asc a b = true) (sort_by year_asc a)) as H.
  { apply sort_by_sorted, year_asc_total. }
  induction H as [|x l Hs IH Hh]; constructor; auto.
  destruct Hh; constructor. now apply Z.leb_le.
Qed.

(** * Further properties *)

(** ** The loader *)

(** X2. A stock code read as a text or an integer, the sentinel 未知
    apart, is stored with at least 6 characters; a code that has 6 or
    more is stored as its text. *)
Theorem normalize_code_length (float_str : Q -> pystr) (x : cell) :
  is_str_or_int x = true ->
  py_str float_str x <> unknown ->
  (6 <= List.length (normalize_code float_str x))%nat
  /\ ((6 <= List.length (py_str float_str x))%nat ->
      normalize_code float_str x = py_str float_str x).
Proof.
  intros Hx Hu. rewrite normalize_code_cases.
  destruct (padded float_str x) eqn:P.
  - split.
    + rewrite <- (normalize_code_padded float_str x P) at 1.
      rewrite normalize_code_cases, P. apply Nat.le_refl.
    + intros H. unfold padded in P. apply andb_prop in P as [_ P].
      apply Nat.ltb_lt in P. lia.
  - split; [|reflexivity].
    unfold padded in P. rewrite Hx in P. simpl in P.
    apply andb_false_iff in P as [P|P].
    + apply negb_false_iff, eqb_eq in P. contradiction.
    + now apply Nat.ltb_ge in P.
Qed.

Lemma normalize_code_length_witness :
  (6 <= List.length (normalize_code (fun _ => []) (Int 42)))%nat.
Proof.
  apply (normalize_code_length (fun _ => []) (Int 42)).
  - reflexivity.
  - discriminate.
Defined.

(** ** The industry sentinel and the selectors *)

Lemma fillna_industry_In df r :
  In r (fillna_industry df) -> exists s, industry_name r = Some s.
Proof.
  unfold fillna_industry. rewrite in_map_iff. intros (r0 & <- & _).
  simpl. eauto.
Qed.

Lemma fillna_industry_same df :
  Forall (fun r => industry_name r <> None) df -> fillna_industry df = df.
Proof.
  induction 1 as [|r df Hr _ IH]; [reflexivity|].
  unfold fillna_industry in *. cbn [List.map]. rewrite IH. f_equal.
  destruct r as [c n y i s t w]. simpl in *.
  destruct i; [reflexivity|congruence].
Qed.

(** X3. After the replacement of the empty industries every record has
    an industry; a table in which none is empty is left as it is, so
    replacing twice is replacing once; and a record has the sentinel
    after the replacement exactly when its industry was empty or was the
    sentinel already. *)
Theorem fillna_industry_spec (df : table) :
  Forall (fun r => exists s, industry_name r = Some s) (fillna_industry df)
  /\ (Forall (fun r => industry_name r <> None) df -> fillna_industry df = df)
  /\ fillna_industry (fillna_industry df) = fillna_industry df
  /\ List.length (fillna_industry df) = List.length df
  /\ List.map (in_industry unknown_industry) (fillna_industry df)
     = List.map (fun r => match industry_name r with
                          | None => true
                          | Some s => PyStr.eqb s unknown_industry
                          end) df.
Proof.
  assert (Forall (fun r => exists s, industry_name r = Some s)
                 (fillna_industry df)) as H.
  { apply Forall_forall. apply fillna_industry_In. }
  split; [exact H|]. split; [apply fillna_industry_same|]. split; [|split].
  - apply fillna_industry_same. eapply Forall_impl; [|exact H].
    intros r (s & ->). discriminate.
  - apply length_map.
  - unfold fillna_industry. rewrite map_map. apply map_ext. intros r.
    unfold in_industry. simpl. destruct (industry_name r); [reflexivity|].
    apply eqb_refl.
Qed.

Lemma fillna_industry_spec_witness :
  fillna_industry [Row (txt "000001") (txt "Acme") 2020 (Some (txt "Tech")) 80%Q [] None]
  = [Row (txt "000001") (txt "Acme") 2020 (Some (txt "Tech")) 80%Q [] None].
Proof.
  apply (proj1 (proj2 (fillna_industry_spec _))).
  repeat constructor. discriminate.
Defined.

Lemma Zleb_total a b : (a <=? b) = false -> (b <=? a) = true.
Proof. rewrite Z.leb_gt, Z.leb_le. lia. Qed.

Lemma years_In df y : In y (years df) <-> exists r, In r df /\ year r = y.
Proof.
  unfold years. rewrite sort_by_In, nodup_In, in_map_iff.
  split; intros (r & H1 & H2); eauto.
Qed.

Lemma years_sorted df : StronglySorted Z.le (years df).
Proof.
  apply Sorted_StronglySorted; [intros a b c; apply Z.le_trans|].
  assert (Sorted (fun a b => (a <=? b) = true)
                 (sort_by Z.leb (nodup Z.eq_dec (List.map year df)))) as H.
  { apply sort_by_sorted, Zleb_total. }
  unfold years. induction H as [|a l Hs IH Hh]; constructor; auto.
  destruct Hh; constructor. now apply Z.leb_le.
Qed.

Lemma years_NoDup df : NoDup (years df).
Proof.
  unfold years. eapply Permutation_NoDup; [apply sort_by_perm|].
  apply NoDup_nodup.
Qed.

Lemma last_of_sorted (l : list Z) y :
  StronglySorted Z.le l ->
  nth_error l (List.length l - 1) = Some y ->
  forall x, In x l -> x <= y.
Proof.
  induction 1 as [|a l Hs IH Ha]; simpl; intros Hy x Hx; [contradiction|].
  rewrite Nat.sub_0_r in Hy. destruct l as [|b l].
  - simpl in Hy. injection Hy as <-. destruct Hx as [<-|[]]. lia.
  - assert (nth_error (b :: l) (List.length (b :: l) - 1) = Some y) as Hy'.
    { simpl. rewrite Nat.sub_0_r. exact Hy. }
    destruct Hx as [<-|Hx]; [|now apply IH].
    rewrite Forall_forall in Ha. apply Ha.
    eapply nth_error_In. exact Hy'.
Qed.

(** X4. The options of the year selector are the years of the table,
    each once, in ascending order; on a table that is not empty the year
    selected when the page opens is the latest year of the table. *)
Theorem years_spec (df : table) :
  StronglySorted Z.le (years df)
  /\ NoDup (years df)
  /\ (forall y, In y (years df) <-> exists r, In r df /\ year r = y)
  /\ (df <> [] ->
      exists y, default_year df = Some y
                /\ (exists r, In r df /\ year r = y)
                /\ forall r, In r df -> year r <= y).
Proof.
  split; [apply years_sorted|]. split; [apply years_NoDup|].
  split; [apply years_In|]. intros Hne.
  assert (years df <> []) as Hy.
  { destruct df as [|r df]; [congruence|]. intros E.
    assert (In (year r) (years (r :: df))) as Hin
      by (apply years_In; exists r; simpl; auto).
    rewrite E in Hin. contradiction. }
  unfold default_year.
  pose proof (years_sorted df) as Hs.
  assert (forall r, In r df -> In (year r) (years df)) as Hin
    by (intros r Hr; apply years_In; eauto).
  assert (forall y, In y (years df) -> exists r, In r df /\ year r = y) as Hout
    by (intros y; apply years_In).
  destruct (years df) as [|y0 ys]; [congruence|].
  destruct (Z.of_nat (List.length (y0 :: ys)) - 1 <? 0) eqn:E.
  - apply Z.ltb_lt in E. cbn [List.length] in E. lia.
  - replace (Z.to_nat (Z.of_nat (List.length (y0 :: ys)) - 1))
      with (List.length (y0 :: ys) - 1)%nat by lia.
    destruct (nth_error (y0 :: ys) (List.length (y0 :: ys) - 1)) as [y|] eqn:Hn.
    + exists y. split; [reflexivity|]. split.
      * apply Hout. eapply nth_error_In. exact Hn.
      * intros r Hr. apply (last_of_sorted (y0 :: ys) y Hs Hn). auto.
    + apply nth_error_None in Hn. cbn [List.length] in Hn. lia.
Qed.

Lemma years_spec_witness :
  exists y,
    default_year [Row (txt "000001") (txt "Acme") 2021 None 80%Q [] None;
                  Row (txt "000002") (txt "Bolt") 2023 None 70%Q [] None;
                  Row (txt "000001") (txt "Acme") 2022 None 90%Q [] None]
    = Some y
    /\ y = 2023.
Proof.
  destruct (proj2 (proj2 (proj2 (years_spec
              [Row (txt "000001") (txt "Acme") 2021 None 80%Q [] None;
               Row (txt "000002") (txt "Bolt") 2023 None 70%Q [] None;
               Row (txt "000001") (txt "Acme") 2022 None 90%Q [] None]))))
    as (y & Hy & _).
  - discriminate.
  - exists y. split; [exact Hy|]. compute in Hy. congruence.
Defined.

Lemma leb_total a b : PyStr.leb a b = false -> PyStr.leb b a = true.
Proof.
  revert b. induction a as [|x a IH]; intros [|y b]; simpl; try discriminate; auto.
  destruct (x <? y)%N eqn:E1; [discriminate|].
  destruct (y <? x)%N eqn:E2; [reflexivity|]. apply IH.
Qed.

Lemma industries_In loaded k :
  In k (industries loaded) <->
  exists r, In r loaded
            /\ (industry_name r = Some k
                \/ (industry_name r = None /\ k = unknown_industry)).
Proof.
  unfold industries. rewrite keys_In. unfold fillna_industry. split.
  - intros (r' & Hr' & Hk). apply in_map_iff in Hr' as (r & <- & Hr).
    simpl in Hk. exists r. split; [assumption|].
    destruct (industry_name r); injection Hk as <-; auto.
  - intros (r & Hr & Hk). eexists. split.
    + apply in_map_iff. exists r. split; [reflexivity|assumption].
    + simpl. destruct Hk as [->|[-> ->]]; reflexivity.
Qed.

(** X5. The options of the industry selector are 全部 followed by the
    industries of the table after the replacement of the empty ones,
    each once, in ascending order; an industry is an option exactly when
    a record has it, the sentinel when a record has none; and on a table
    that is not empty no option selects an empty part of the table. *)
Theorem industry_options_spec (loaded : table) :
  industry_options loaded = all_industries :: industries loaded
  /\ Sorted (fun a b => PyStr.leb a b = true) (industries loaded)
  /\ NoDup (industries loaded)
  /\ (forall k,
        In k (industries loaded) <->
        exists r, In r loaded
                  /\ (industry_name r = Some k
                      \/ (industry_name r = None /\ k = unknown_industry)))
  /\ (loaded <> [] ->
      forall k, In k (industry_options loaded) ->
                by_industry k (fillna_industry loaded) <> []).
Proof.
  split; [reflexivity|]. split.
  { unfold industries, keys. apply sort_by_sorted, leb_total. }
  split; [apply keys_NoDup|]. split; [apply industries_In|].
  intros Hne k Hk. unfold by_industry.
  destruct (PyStr.eqb k all_industries) eqn:E.
  - destruct loaded; [congruence|discriminate].
  - destruct Hk as [<-|Hk]; [now rewrite eqb_refl in E|].
    unfold industries in Hk. apply keys_In in Hk as (r & Hr & Hi).
    intros Hf.
    assert (In r (List.filter (in_industry k) (fillna_industry loaded))) as Hin.
    { apply filter_In. split; [assumption|]. now apply in_industry_iff. }
    rewrite Hf in Hin. contradiction.
Qed.

Lemma industry_options_spec_witness :
  by_industry unknown_industry
    (fillna_industry [Row (txt "000001") (txt "Acme") 2020 None 80%Q [] None])
  <> [].
Proof.
  apply (proj2 (proj2 (proj2 (proj2 (industry_options_spec
           [Row (txt "000001") (txt "Acme") 2020 None 80%Q [] None]))))).
  - discriminate.
  - simpl. right. left. reflexivity.
Defined.

(** ** The filter chain *)

Lemma filter_all {A} (p : A -> bool) l :
  (forall x, In x l -> p x = true) -> List.filter p l = l.
Proof.
  induction l as [|x l IH]; simpl; intros H; [reflexivity|].
  rewrite (H x (or_introl eq_refl)). f_equal. apply IH. auto.
Qed.

Lemma filter_again {A} (p : A -> bool) l :
  List.filter p (List.filter p l) = List.filter p l.
Proof. apply filter_all. intros x H. now apply filter_In in H. Qed.

(** X6. Filtering the filtered table again with the same widgets gives
    the same table. *)
Theorem filtered_df_again (df : table) (w : widgets) (out : table) :
  filtered_df df w = Returns out -> filtered_df out w = Returns out.
Proof.
  unfold filtered_df. rewrite !value_filters.
  set (keep := fun r => _ && _ && _).
  unfold by_search, contains_mask.
  destruct (company_search w) as [|c pat].
  - intros H. injection H as <-. now rewrite filter_again.
  - destruct (matcher (c :: pat)) as [p|]; try discriminate.
    intros H. injection H as <-. f_equal.
    rewrite (filter_all keep).
    + apply filter_again.
    + intros x Hx. apply filter_In in Hx as [Hx _].
      now apply filter_In in Hx.
Qed.

(** X7. When every score of the table is a whole number, the filter with
    all industries, the slider at its default range and no search text
    returns exactly the records of the selected year. *)
Theorem filtered_df_default_whole (df : table) (y lo hi : Z) :
  default_range df = Returns (lo, hi) ->
  (forall r, In r df -> exists z, (index_score r == inject_Z z)%Q) ->
  filtered_df df (Widgets y all_industries (lo, hi) [])
  = Returns (List.filter (in_year y) df).
Proof.
  intros Hd Hw. unfold filtered_df, by_search.
  cbn [company_search selected_industry index_range selected_year].
  unfold by_industry. rewrite eqb_refl. f_equal. apply filter_all.
  intros r Hr. apply filter_In in Hr as [Hr _].
  destruct (default_range_bounds df lo hi Hd) as (a & b & Ha & -> & Hb & ->).
  assert (In (index_score r) (scores df)) as Hs by now apply in_map.
  apply in_range_iff. simpl. split.
  - apply series_min_In in Ha as Hin. unfold scores in Hin.
    apply in_map_iff in Hin as (ra & <- & Hra).
    destruct (Hw ra Hra) as (z & Hz).
    rewrite (py_int_whole _ z Hz), <- Hz.
    now apply (series_min_lower (scores df)).
  - apply series_max_In in Hb as Hin. unfold scores in Hin.
    apply in_map_iff in Hin as (rb & <- & Hrb).
    destruct (Hw rb Hrb) as (z & Hz).
    rewrite (py_int_whole _ z Hz), <- Hz.
    now apply (series_max_upper (scores df)).
Qed.

(** ** The summary cards *)

Lemma filtered_df_rows df w out :
  filtered_df df w = Returns out ->
  forall r, In r out ->
    In r df /\ in_year (selected_year w) r = true
    /\ in_range (index_range w) r = true.
Proof.
  unfold filtered_df. rewrite value_filters. unfold by_search, contains_mask.
  intros H r Hr.
  assert (In r (List.filter
                  (fun r => in_year (selected_year w) r
                            && (PyStr.eqb (selected_industry w) all_industries
                                || in_industry (selected_industry w) r)
                            && in_range (index_range w) r) df)) as Hin.
  { destruct (company_search w) as [|c pat].
    - injection H as <-. exact Hr.
    - destruct (matcher (c :: pat)); try discriminate.
      injection H as <-. now apply filter_In in Hr. }
  apply filter_In in Hin as [Hin Hk].
  apply andb_prop in Hk as [Hk Hrg]. apply andb_prop in Hk as [Hy _]. auto.
Qed.

(** X8. On a filtered table that is not empty the count card shows the
    number of records, and the integers on the maximum and minimum cards
    lie within the range selected on the slider, the minimum not above
    the maximum. *)
Theorem metrics_within_range (df : table) (w : widgets) (out : table) :
  filtered_df df w = Returns out ->
  out <> [] ->
  exists hi lo,
    count_card (metrics out) = Number (Z.of_nat (List.length out))
    /\ max_card (metrics out) = Number hi
    /\ min_card (metrics out) = Number lo
    /\ fst (index_range w) <= lo /\ lo <= hi /\ hi <= snd (index_range w).
Proof.
  intros Hf Hne.
  assert (scores out <> []) as Hs.
  { destruct out; [congruence|discriminate]. }
  destruct (series_max_defined (scores out) Hs) as (mx & Hmx).
  destruct (series_min_defined (scores out) Hs) as (mn & Hmn).
  assert (forall q, In q (scores out) ->
            (inject_Z (fst (index_range w)) <= q
             /\ q <= inject_Z (snd (index_range w)))%Q) as Hrange.
  { intros q Hq. unfold scores in Hq. apply in_map_iff in Hq as (r & <- & Hr).
    apply in_range_iff. now apply (filtered_df_rows df w out Hf r Hr). }
  exists (py_int mx), (py_int mn).
  destruct out as [|r t]; [congruence|].
  unfold metrics, top_score, low_score. rewrite Hmx, Hmn. simpl.
  repeat split.
  - rewrite <- (py_int_inject (fst (index_range w))). apply py_int_mono.
    apply Hrange. now apply series_min_In.
  - apply py_int_mono. apply (series_min_lower (scores (r :: t))); [assumption|].
    now apply series_max_In.
  - rewrite <- (py_int_inject (snd (index_range w))). apply py_int_mono.
    apply Hrange. now apply series_max_In.
Qed.

(** ** What the rankings show *)

Lemma In_skipn_In {A} n (l : list A) x : In x (skipn n l) -> In x l.
Proof.
  intros H. rewrite <- (firstn_skipn n l). apply in_or_app. now right.
Qed.

Lemma In_firstn_or_skipn {A} n (l : list A) x :
  In x l -> In x (firstn n l) \/ In x (skipn n l).
Proof.
  intros H. rewrite <- (firstn_skipn n l) in H. now apply in_app_or.
Qed.

(** In a sorted list what [head] keeps precedes what it leaves. *)
Lemma head_dominates {A} (R : A -> A -> Prop) n l :
  StronglySorted R l ->
  forall a b, In a (firstn n l) -> In b (skipn n l) -> R a b.
Proof.
  intros H. revert n. induction H as [|x l Hs IH Hx]; intros n a b Ha Hb.
  - destruct n; contradiction.
  - destruct n as [|n]; [contradiction|]. simpl in Ha, Hb.
    destruct Ha as [<-|Ha].
    + rewrite Forall_forall in Hx. apply Hx. now apply In_skipn_In in Hb.
    + now apply (IH n).
Qed.

Lemma sort_by_strongly_sorted {A} (le : A -> A -> bool) l :
  (forall a b, le a b = false -> le b a = true) ->
  (forall a b c, le a b = true -> le b c = true -> le a c = true) ->
  StronglySorted (fun a b => le a b = true) (sort_by le l).
Proof.
  intros Htot Htrans. apply Sorted_StronglySorted.
  - intros a b c. apply Htrans.
  - now apply sort_by_sorted.
Qed.

Lemma score_desc_trans a b c :
  score_desc a b = true -> score_desc b c = true -> score_desc a c = true.
Proof.
  unfold score_desc. rewrite !Qle_bool_iff. intros H1 H2.
  eapply Qle_trans; eassumption.
Qed.

Lemma ranked_df_strongly_sorted filtered :
  StronglySorted (fun a b => (index_score b <= index_score a)%Q)
                 (ranked_df filtered).
Proof.
  assert (StronglySorted (fun a b => score_desc a b = true)
                         (ranked_df filtered)) as H.
  { apply sort_by_strongly_sorted.
    - intros a b. apply Qle_bool_total.
    - apply score_desc_trans. }
  induction H as [|x l Hs IH Hx]; constructor; auto.
  eapply Forall_impl; [|exact Hx]. intros b Hb. now apply Qle_bool_iff.
Qed.

Lemma StronglySorted_map {A B} (f : A -> B) (R : B -> B -> Prop) l :
  StronglySorted (fun a b => R (f a) (f b)) l ->
  StronglySorted R (List.map f l).
Proof.
  induction 1 as [|x l Hs IH Hx]; simpl; constructor; auto.
  apply Forall_map. exact Hx.
Qed.

(** X10. The ranking table shows the best: the records of the filtered
    table are those shown together with those left out, and no record
    left out has a score above that of a record shown; with 20 records
    or fewer all are shown. *)
Theorem display_df_top (filtered : table) :
  let shown := List.map snd (display_df filtered) in
  let left_out := skipn 20 (List.map columns (ranked_df filtered)) in
  Permutation (List.map columns filtered) (shown ++ left_out)
  /\ (forall a b, In a shown -> In b left_out ->
                  (l_index_score b <= l_index_score a)%Q)
  /\ ((List.length filtered <= 20)%nat -> left_out = []).
Proof.
  cbv zeta. destruct (display_df_columns filtered) as [_ ->]. unfold head.
  split; [|split].
  - rewrite firstn_skipn. apply Permutation_map. apply sort_by_perm.
  - apply (head_dominates
             (fun a b => (l_index_score b <= l_index_score a)%Q)).
    apply StronglySorted_map with (f := columns). simpl.
    apply ranked_df_strongly_sorted.
  - intros H. apply skipn_all2.
    unfold ranked_df. now rewrite length_map, sort_by_length.
Qed.

Lemma display_df_top_witness :
  skipn 20 (List.map columns
              (ranked_df [Row (txt "000001") (txt "Acme") 2020 None 80%Q [] None]))
  = [].
Proof.
  apply (proj2 (proj2 (display_df_top
           [Row (txt "000001") (txt "Acme") 2020 None 80%Q [] None]))).
  simpl. lia.
Defined.

Lemma StronglySorted_combine {A B} (R1 : A -> A -> Prop) (R2 : B -> B -> Prop)
    (l1 : list A) (l2 : list B) :
  StronglySorted R1 l1 -> StronglySorted R2 l2 ->
  StronglySorted (fun x y => R1 (fst x) (fst y) /\ R2 (snd x) (snd y))
                 (combine l1 l2).
Proof.
  intros H1. revert l2. induction H1 as [|a l1 Hs1 IH Ha]; intros l2 H2.
  - constructor.
  - destruct H2 as [|b l2 Hs2 Hb]; simpl; constructor; [now apply IH|].
    apply Forall_forall. intros [a' b'] Hin. simpl.
    rewrite Forall_forall in Ha, Hb. split.
    + apply Ha. eapply in_combine_l. exact Hin.
    + apply Hb. eapply in_combine_r. exact Hin.
Qed.

Lemma StronglySorted_pair {A} (R : A -> A -> Prop) l x y :
  StronglySorted R l -> In x l -> In y l -> x = y \/ R x y \/ R y x.
Proof.
  induction 1 as [|a l Hs IH Ha]; intros Hx Hy; [contradiction|].
  rewrite Forall_forall in Ha.
  destruct Hx as [<-|Hx], Hy as [<-|Hy]; auto.
Qed.

Lemma range_strongly_sorted a b : StronglySorted Z.lt (range a b).
Proof.
  unfold range. generalize (Z.to_nat (b - a)) as n. intros n.
  apply StronglySorted_map with (f := fun i => a + Z.of_nat i).
  generalize 0%nat as s. induction n as [|n IH]; intros s; simpl; constructor.
  - apply IH.
  - apply Forall_forall. intros i Hi. apply in_seq in Hi. lia.
Qed.

Lemma StronglySorted_firstn {A} (R : A -> A -> Prop) n l :
  StronglySorted R l -> StronglySorted R (firstn n l).
Proof.
  intros H. revert n. induction H as [|x l Hs IH Hx]; intros [|n]; simpl;
    constructor; auto.
  apply Forall_forall. intros y Hy. rewrite Forall_forall in Hx.
  apply Hx. rewrite <- (firstn_skipn n l). apply in_or_app. now left.
Qed.

(** X11. In the ranking table a record with a higher score than another
    has the smaller rank. *)
Theorem display_df_rank_order (filtered : table) (i j : Z) (a b : listing) :
  In (i, a) (display_df filtered) ->
  In (j, b) (display_df filtered) ->
  (l_index_score b < l_index_score a)%Q ->
  i < j.
Proof.
  intros Ha Hb Hlt.
  assert (StronglySorted
            (fun x y => fst x < fst y
                        /\ (l_index_score (snd y) <= l_index_score (snd x))%Q)
            (display_df filtered)) as Hs.
  { unfold display_df.
    apply (StronglySorted_combine Z.lt
             (fun x y => (l_index_score y <= l_index_score x)%Q)).
    - apply range_strongly_sorted.
    - unfold head. apply StronglySorted_firstn.
      apply StronglySorted_map with (f := columns). simpl.
      apply ranked_df_strongly_sorted. }
  destruct (StronglySorted_pair _ _ (i, a) (j, b) Hs Ha Hb) as [E|[[H _]|[_ H]]].
  - injection E as -> ->. exfalso. now apply (Qlt_irrefl (l_index_score b)).
  - exact H.
  - simpl in H. exfalso. apply (Qlt_irrefl (l_index_score b)).
    eapply Qlt_le_trans; eassumption.
Qed.

Lemma display_df_rank_order_witness : 1 < 2.
Proof.
  apply (display_df_rank_order
           [Row (txt "000002") (txt "Bolt") 2020 None 70%Q [] None;
            Row (txt "000001") (txt "Acme") 2020 None 80%Q [] None]
           1 2
           (Listing (txt "000001") (txt "Acme") None 80%Q None)
           (Listing (txt "000002") (txt "Bolt") None 70%Q None)).
  - simpl. left. reflexivity.
  - simpl. right. left. reflexivity.
  - reflexivity.
Defined.

Lemma NoDup_firstn {A} n (l : list A) : NoDup l -> NoDup (firstn n l).
Proof.
  intros H. rewrite <- (firstn_skipn n l) in H.
  now apply NoDup_app_remove_r in H.
Qed.

Lemma count_desc_total a b : count_desc a b = false -> count_desc b a = true.
Proof. unfold count_desc. rewrite Nat.leb_gt, Nat.leb_le. lia. Qed.

Lemma count_desc_trans a b c :
  count_desc a b = true -> count_desc b c = true -> count_desc a c = true.
Proof. unfold count_desc. rewrite !Nat.leb_le. lia. Qed.

Lemma company_counts_In df k c :
  In (k, c) (sort_by count_desc (company_counts df)) <->
  In k (keys df) /\ c = List.length (List.filter (in_industry k) df).
Proof.
  rewrite sort_by_In. unfold company_counts. rewrite in_map_iff. split.
  - intros (k' & E & Hk). injection E as -> <-. auto.
  - intros (Hk & ->). eauto.
Qed.

Lemma company_counts_keys df :
  Permutation (List.map fst (sort_by count_desc (company_counts df))) (keys df).
Proof.
  rewrite <- (Permutation_map fst (sort_by_perm count_desc (company_counts df))).
  unfold company_counts. rewrite map_map. simpl. now rewrite map_id.
Qed.

(** X12. The industries recommended when nothing matches are at most
    three, all different, each the industry of a record of the table, and
    the most populous ones: no other industry has more records than a
    recommended one.  There is a recommendation as soon as a record has
    an industry. *)
Theorem top_industries_spec (df : table) :
  List.length (top_industries df) = Nat.min 3 (List.length (keys df))
  /\ NoDup (top_industries df)
  /\ (forall k, In k (top_industries df) ->
                exists r, In r df /\ industry_name r = Some k)
  /\ (forall k k',
        In k (top_industries df) -> In k' (keys df) ->
        ~ In k' (top_industries df) ->
        (List.length (List.filter (in_industry k') df)
         <= List.length (List.filter (in_industry k) df))%nat)
  /\ ((exists r, In r df /\ industry_name r <> None) ->
      top_industries df <> []).
Proof.
  unfold top_industries, head.
  set (s := sort_by count_desc (company_counts df)).
  assert (List.length (List.map fst (firstn 3 s))
          = Nat.min 3 (List.length (keys df))) as Hlen.
  { rewrite length_map, length_firstn.
    now rewrite <- (Permutation_length (company_counts_keys df)), length_map. }
  split; [exact Hlen|]. split; [|split; [|split]].
  - rewrite <- firstn_map. apply NoDup_firstn.
    eapply Permutation_NoDup;
      [symmetry; apply company_counts_keys|apply keys_NoDup].
  - intros k Hk. apply in_map_iff in Hk as ([k0 c] & <- & Hin).
    apply keys_In. simpl.
    assert (In (k0, c) s) as H.
    { rewrite <- (firstn_skipn 3 s). apply in_or_app. now left. }
    now apply company_counts_In in H.
  - intros k k' Hk Hk' Hn.
    apply in_map_iff in Hk as ([k0 c] & <- & Hin). simpl.
    assert (In (k0, c) s) as Hs.
    { rewrite <- (firstn_skipn 3 s). apply in_or_app. now left. }
    apply company_counts_In in Hs as [_ ->].
    assert (In (k', List.length (List.filter (in_industry k') df)) s) as Hs'.
    { apply company_counts_In. auto. }
    destruct (In_firstn_or_skipn 3 s _ Hs') as [H|H].
    + exfalso. apply Hn. apply in_map_iff. eexists. split; [|exact H]. reflexivity.
    + assert (count_desc (k0, List.length (List.filter (in_industry k0) df))
                         (k', List.length (List.filter (in_industry k') df))
              = true) as Hc.
      { apply (head_dominates (fun a b => count_desc a b = true) 3 s);
          [|assumption|assumption].
        apply sort_by_strongly_sorted;
          [apply count_desc_total|apply count_desc_trans]. }
      unfold count_desc in Hc. simpl in Hc. now apply Nat.leb_le.
  - intros (r & Hr & Hi) E.
    apply (f_equal (@List.length _)) in E. rewrite Hlen in E. simpl in E.
    destruct (industry_name r) as [k|] eqn:Ek; [|congruence].
    assert (In k (keys df)) as Hk by (apply keys_In; eauto).
    destruct (keys df); [contradiction|]. simpl in E. lia.
Qed.

Lemma top_industries_spec_witness :
  top_industries
    [Row (txt "000001") (txt "Acme") 2020 (Some (txt "Tech")) 80%Q [] None]
  <> [].
Proof.
  apply (proj2 (proj2 (proj2 (proj2 (top_industries_spec
           [Row (txt "000001") (txt "Acme") 2020 (Some (txt "Tech")) 80%Q [] None]))))).
  eexists. split; [left; reflexivity|]. discriminate.
Defined.

Lemma value_desc_trans a b c :
  value_desc a b = true -> value_desc b c = true -> value_desc a c = true.
Proof.
  unfold value_desc. destruct (snd a), (snd b), (snd c); try congruence.
  rewrite !Qle_bool_iff. intros H1 H2. eapply Qle_trans; eassumption.
Qed.

(** X13. The bar chart shows at most ten industries, those of the
    highest mean score of the selected year: no industry left out of the
    chart has a mean above that of an industry in it; with ten
    industries or fewer all are in the chart. *)
Theorem bar_chart_spec (df : table) (y : Z) :
  (List.length (bar_chart df y) <= 10)%nat
  /\ (forall a b,
        In a (bar_chart df y) -> In b (industry_avg df y) ->
        ~ In b (bar_chart df y) ->
        exists x z, snd a = Some x /\ snd b = Some z /\ (z <= x)%Q)
  /\ ((List.length (industry_avg df y) <= 10)%nat ->
      bar_chart df y = industry_avg df y).
Proof.
  unfold bar_chart, head. split; [|split].
  - rewrite length_firstn. apply Nat.le_min_l.
  - intros a b Ha Hb Hn.
    assert (forall e, In e (industry_avg df y) -> exists x, snd e = Some x) as Hdef.
    { intros [k m] He. unfold industry_avg in He. apply sort_by_In in He.
      apply group_mean_defined in He. exact He. }
    destruct (In_firstn_or_skipn 10 _ _ Hb) as [H|H]; [contradiction|].
    assert (value_desc a b = true) as Hv.
    { apply (head_dominates (fun a b => value_desc a b = true) 10
               (industry_avg df y)); [|assumption|assumption].
      unfold industry_avg. apply sort_by_strongly_sorted;
        [apply value_desc_total|apply value_desc_trans]. }
    destruct (Hdef a) as (x & Hx).
    { rewrite <- (firstn_skipn 10 (industry_avg df y)). apply in_or_app. now left. }
    destruct (Hdef b Hb) as (z & Hz).
    exists x, z. unfold value_desc in Hv. rewrite Hx, Hz in Hv.
    repeat split; auto. now apply Qle_bool_iff.
  - apply firstn_all2.
Qed.

(** ** The search box and the trend *)

(** X15. With a search text, every record of the filtered table is a
    record of the trend table: the trend is computed, with the same
    pattern, from the whole table. *)
Theorem filtered_df_in_trend (df : table) (w : widgets) (out : table) :
  filtered_df df w = Returns out ->
  company_search w <> [] ->
  exists t, trend_df df (company_search w) = Returns t
            /\ forall r, In r out -> In r t.
Proof.
  unfold filtered_df, trend_df. rewrite value_filters.
  unfold by_search, contains_mask.
  destruct (company_search w) as [|c pat]; [congruence|].
  destruct (matcher (c :: pat)) as [p|]; try discriminate.
  intros H _. injection H as <-. eexists. split; [reflexivity|].
  intros r Hr. apply sort_by_In. apply filter_In in Hr as [Hr Hh].
  apply filter_In in Hr as [Hr _]. apply filter_In. auto.
Qed.

(** X16. Letter case in the search box does not matter: two texts
    without special characters that differ only in the case of their
    letters select the same records. *)
Theorem by_search_case (t : table) (p p' : pystr) :
  plain p = true -> plain p' = true -> casefold p = casefold p' ->
  by_search p t = by_search p' t.
Proof.
  intros Hp Hp' E.
  assert (forall s, icontains p s = icontains p' s) as Hi.
  { intros s. apply eq_true_iff_eq. rewrite !icontains_casefold.
    now rewrite E. }
  unfold by_search, contains_mask.
  destruct p as [|c p], p' as [|c' p']; try discriminate; [reflexivity|].
  rewrite (matcher_plain _ Hp), (matcher_plain _ Hp'). f_equal.
  apply filter_ext. intros r.
  now rewrite (hit_plain _ r Hp), (hit_plain _ r Hp'), !Hi.
Qed.

(** ** The slider *)

Lemma py_int_near q :
  (inject_Z (py_int q) - 1 < q /\ q < inject_Z (py_int q) + 1)%Q.
Proof.
  rewrite py_int_cases. destruct (0 <=? Qnum q).
  - split.
    + apply Qlt_le_trans with (inject_Z (Qfloor q)); [|apply Qfloor_le].
      rewrite <- (Qplus_0_r (inject_Z (Qfloor q))) at 2.
      apply Qplus_lt_r. reflexivity.
    + change 1%Q with (inject_Z 1). rewrite <- inject_Z_plus. apply Qlt_floor.
  - split.
    + change 1%Q with (inject_Z 1). unfold Qminus.
      change (- inject_Z 1)%Q with (inject_Z (-1)). rewrite <- inject_Z_plus.
      apply Qceiling_lt.
    + apply Qle_lt_trans with (inject_Z (Qceiling q)); [apply Qle_ceiling|].
      rewrite <- (Qplus_0_r (inject_Z (Qceiling q))) at 1.
      apply Qplus_lt_r. reflexivity.
Qed.

(** X17. The bounds of the slider cannot be computed for the empty
    table: the conversion of the missing minimum to an integer raises.
    For any other table they are two integers, the lower not above the
    upper, and every score of the table is less than 1 away from the
    range they span. *)
Theorem default_range_spec (df : table) :
  (default_range df = Raises ValueError <-> df = [])
  /\ (df <> [] ->
      exists lo hi,
        default_range df = Returns (lo, hi)
        /\ lo <= hi
        /\ forall r, In r df ->
             (inject_Z lo - 1 < index_score r
              /\ index_score r < inject_Z hi + 1)%Q).
Proof.
  split.
  - split.
    + destruct df as [|r df]; [reflexivity|]. intros H. exfalso.
      unfold default_range, min_index, max_index in H.
      destruct (series_min_defined (scores (r :: df))) as (a & Ha); [discriminate|].
      destruct (series_max_defined (scores (r :: df))) as (b & Hb); [discriminate|].
      rewrite Ha, Hb in H. discriminate.
    + intros ->. reflexivity.
  - intros Hne.
    assert (scores df <> []) as Hs by (destruct df; [congruence|discriminate]).
    destruct (series_min_defined (scores df) Hs) as (a & Ha).
    destruct (series_max_defined (scores df) Hs) as (b & Hb).
    exists (py_int a), (py_int b).
    unfold default_range, min_index, max_index. rewrite Ha, Hb.
    split; [reflexivity|]. split.
    + apply py_int_mono. apply (series_min_lower (scores df)); [assumption|].
      now apply series_max_In.
    + intros r Hr.
      assert (In (index_score r) (scores df)) as Hin by now apply in_map.
      split.
      * eapply Qlt_le_trans; [apply (py_int_near a)|].
        now apply (series_min_lower (scores df)).
      * eapply Qle_lt_trans; [|apply (py_int_near b)].
        now apply (series_max_upper (scores df)).
Qed.

Lemma default_range_spec_witness :
  exists lo hi,
    default_range [Row (txt "000001") (txt "Acme") 2020 None (857 # 10) [] None]
    = Returns (lo, hi)
    /\ lo <= hi.
Proof.
  destruct (proj2 (default_range_spec
              [Row (txt "000001") (txt "Acme") 2020 None (857 # 10) [] None]))
    as (lo & hi & H1 & H2 & _).
  - discriminate.
  - exists lo, hi. auto.
Defined.

(** ** The run *)

Lemma default_range_defined df :
  df <> [] -> exists rg, default_range df = Returns rg.
Proof.
  intros Hne.
  assert (scores df <> []) as Hs by (destruct df; [congruence|discriminate]).
  destruct (series_min_defined (scores df) Hs) as (a & Ha).
  destruct (series_max_defined (scores df) Hs) as (b & Hb).
  unfold default_range, min_index, max_index. rewrite Ha, Hb. eauto.
Qed.

Lemma fillna_industry_nonempty loaded :
  loaded <> [] -> fillna_industry loaded <> [].
Proof. destruct loaded; [congruence|discriminate]. Qed.

(** ** The radar chart *)




(** ** Narrowing the search *)

(** X22. Typing a search text never adds a record: the table filtered
    with a search text is the table filtered without it, the other
    widgets unchanged, less the records the pattern does not hit. *)
Theorem filtered_df_narrows (df : table) (w : widgets) (out : table) :
  filtered_df df w = Returns out ->
  exists whole keep,
    filtered_df df (Widgets (selected_year w) (selected_industry w)
                            (index_range w) [])
    = Returns whole
    /\ out = List.filter keep whole
    /\ forall r, In r out -> In r whole.
Proof.
  unfold filtered_df. cbn [selected_year selected_industry index_range company_search].
  set (whole := List.filter _ _). unfold by_search at 2.
  unfold by_search, contains_mask.
  destruct (company_search w) as [|c pat].
  - intros H. injection H as <-. exists whole, (fun _ => true).
    split; [reflexivity|]. split; [|auto].
    symmetry. now apply filter_all.
  - destruct (matcher (c :: pat)) as [p|]; try discriminate.
    intros H. injection H as <-. exists whole, (hit p).
    split; [reflexivity|]. split; [reflexivity|].
    intros r Hr. now apply filter_In in Hr.
Qed.


(** ** The loaded table, the trend, the run and the radar *)


(** X14. When the trend table is computed the search text is a valid
    pattern, and the table holds exactly the records of the whole table
    that the pattern hits in the name or in the code, each as often as
    in the table, by ascending year; for a text without special
    characters these are the records whose name or code contains the
    text, letter case apart. *)
Theorem trend_df_rows (df : table) (pat : pystr) (t : table) :
  trend_df df pat = Returns t ->
  exists p,
    matcher pat = Some p
    /\ Permutation t
         (List.filter (fun r => p (company_name r) || p (stock_code r)) df)
    /\ StronglySorted (fun a b => year a <= year b) t
    /\ (plain pat = true ->
        forall r, In r t <->
                  In r df /\ (icontains pat (company_name r) = true
                              \/ icontains pat (stock_code r) = true)).
Proof.
  unfold trend_df, contains_mask.
  destruct (matcher pat) as [p|] eqn:Em; try discriminate.
  intros H. injection H as <-. exists p. split; [reflexivity|].
  split; [symmetry; apply sort_by_perm|]. split.
  - assert (StronglySorted (fun a b => year_asc a b = true)
              (sort_by year_asc (List.filter (hit p) df))) as H.
    { apply sort_by_strongly_sorted; [apply year_asc_total|].
      intros a b c. unfold year_asc. rewrite !Z.leb_le. lia. }
    induction H as [|x l Hs IH Hx]; constructor; auto.
    eapply Forall_impl; [|exact Hx]. intros b Hb. now apply Z.leb_le.
  - intros Hp r. rewrite (matcher_plain _ Hp) in Em. injection Em as <-.
    rewrite sort_by_In, filter_In, (hit_plain _ r Hp), orb_true_iff.
    reflexivity.
Qed.

(** X18. When the slider accepts its bounds, a search text that is no
    valid pattern stops the run with the error of the pattern compiler,
    at the search step of the filter: the ranking table and the industry
    comparison are not made, the store holds tables only. *)
Theorem script_bad_pattern (loaded : table) (w : widgets) (lo hi : Z) :
  default_range (fillna_industry loaded) = Returns (lo, hi) ->
  lo < hi ->
  company_search w <> [] ->
  matcher (company_search w) = None ->
  fst (script loaded w []) = Raises ReError
  /\ Forall (fun o => exists t, o = DataFrame t) (snd (script loaded w [])).
Proof.
  intros Hrg Hlt Hne Hbad.
  assert (exists h, script loaded w [] = (Raises ReError, h)
                    /\ Forall (fun o => exists t, o = DataFrame t) h)
    as (h & -> & Hh); [|now split].
  unfold script, fill_industry, page.
  unfold bind at 1. unfold new at 1. cbn [List.length app].
  unfold bind at 1. unfold bind at 1. unfold frame_at at 1. cbn [nth_error].
  unfold assign at 1. cbn [replace_at].
  unfold derive, derive_or_raise, contains_mask.
  unfold bind at 1. unfold frame_at at 1. cbn [nth_error].
  unfold bind at 1. unfold lift at 1. rewrite Hrg.
  unfold bind at 1. unfold lift at 1. unfold slider. cbn [fst snd].
  rewrite (proj2 (Z.ltb_lt lo hi) Hlt).
  destruct (company_search w) as [|c pat]; [congruence|]. rewrite Hbad.
  destruct (PyStr.eqb (selected_industry w) all_industries);
    cbn -[List.filter]; eexists; (split; [reflexivity|]);
    repeat (constructor; [eexists; reflexivity|]); constructor.
Qed.

(** X19. When the slider accepts its bounds and the search text is empty
    or a valid pattern, the run completes; [df] is bound to the loaded
    table with the empty industries replaced and [filtered_df] to the
    table the filter chain returns on it. *)
Theorem script_completes (loaded : table) (w : widgets) (lo hi : Z) :
  default_range (fillna_industry loaded) = Returns (lo, hi) ->
  lo < hi ->
  company_search w = [] \/ (exists p, matcher (company_search w) = Some p) ->
  exists n h out,
    script loaded w [] = (Returns n, h)
    /\ nth_error h (n_df n) = Some (DataFrame (fillna_industry loaded))
    /\ filtered_df (fillna_industry loaded) w = Returns out
    /\ nth_error h (n_filtered_df n) = Some (DataFrame out).
Proof.
  intros Hrg Hlt Hs.
  assert (exists n h, script loaded w [] = (Returns n, h)) as (n & h & Hrun).
  { unfold script, fill_industry, page.
    unfold bind at 1. unfold new at 1. cbn [List.length app].
    unfold bind at 1. unfold bind at 1. unfold frame_at at 1. cbn [nth_error].
    unfold assign at 1. cbn [replace_at].
    unfold derive, derive_or_raise, contains_mask.
    unfold bind at 1. unfold frame_at at 1. cbn [nth_error].
    unfold bind at 1. unfold lift at 1. rewrite Hrg.
    unfold bind at 1. unfold lift at 1. unfold slider. cbn [fst snd].
    rewrite (proj2 (Z.ltb_lt lo hi) Hlt).
    destruct Hs as [->|(p & Hp)].
    - destruct (PyStr.eqb (selected_industry w) all_industries);
        do 2 eexists; reflexivity.
    - destruct (company_search w) as [|c pat];
        [|rewrite Hp];
        destruct (PyStr.eqb (selected_industry w) all_industries);
        do 2 eexists; reflexivity. }
  destruct (script_computes loaded w n h Hrun) as (H0 & (out & H1 & H2 & _) & _).
  exists n, h, out. auto.
Qed.


End Run.

(** * Examples

    The statements above hold for every case folding, every behaviour of
    [re.compile] outside the embedded fragment and every mean; the
    examples below run the definitions on ASCII text. *)

Arguments Returns {A} a.
Arguments Raises {A} e.

(** With a search text that is not a valid pattern the filter raises and
    returns no table: the claim that it returns the rows that pass, for
    every search text, fails at ( . *)
Lemma filtered_df_raises :
  let df := [Row (txt "000001") (txt "Acme") 2020 (Some (txt "Tech")) 80%Q [] None] in
  let w := Widgets 2020 all_industries (70, 80) (txt "(") in
  filtered_df ascii_lower no_beyond df w = Raises ReError
  /\ ~ exists out, filtered_df ascii_lower no_beyond df w = Returns out.
Proof. cbv zeta. split; [reflexivity|]. intros (out & H). discriminate. Qed.

Lemma filtered_df_exact_witness :
  filtered_df ascii_lower no_beyond
    [Row (txt "000001") (txt "Acme") 2020 (Some (txt "Tech")) 80%Q [] None;
     Row (txt "000002") (txt "Bolt") 2020 (Some (txt "Tech")) 70%Q [] None;
     Row (txt "000003") (txt "Acme") 2021 (Some (txt "Tech")) 75%Q [] None]
    (Widgets 2020 all_industries (70, 80) (txt "acme"))
  = Returns [Row (txt "000001") (txt "Acme") 2020 (Some (txt "Tech")) 80%Q [] None].
Proof.
  refine (eq_trans
            (proj2 (proj2 (proj2 (filtered_df_exact ascii_lower no_beyond _ _))) _ _) _).
  - discriminate.
  - reflexivity.
  - reflexivity.
Defined.

Lemma by_search_plain_witness :
  by_search ascii_lower no_beyond (txt "acme")
    [Row (txt "000001") (txt "Acme Ltd") 2020 None 80%Q [] None;
     Row (txt "000002") (txt "Bolt") 2020 None 70%Q [] None]
  = Returns [Row (txt "000001") (txt "Acme Ltd") 2020 None 80%Q [] None].
Proof.
  refine (eq_trans (proj1 (by_search_plain ascii_lower no_beyond _ (txt "acme") _ _)) _).
  - discriminate.
  - reflexivity.
  - reflexivity.
Defined.

(** The search text is a pattern, not a literal: a dot selects a row
    that has no dot in its name or code, and an opening parenthesis
    raises instead of selecting. *)
Lemma by_search_not_literal :
  let r := Row (txt "000001") (txt "Acme") 2020 None 80%Q [] None in
  by_search ascii_lower no_beyond (txt ".") [r] = Returns [r]
  /\ icontains ascii_lower (txt ".") (company_name r) = false
  /\ icontains ascii_lower (txt ".") (stock_code r) = false
  /\ by_search ascii_lower no_beyond (txt "(") [r] = Raises ReError
  /\ by_search ascii_lower no_beyond (txt "*") [r] = Raises ReError.
Proof. cbv zeta. repeat split. Qed.

(** The scenario of the specification. *)
Lemma trend_df_acme :
  let df := [Row (txt "000001") (txt "Acme") 2021 None 90%Q [] None;
             Row (txt "000001") (txt "Acme") 2020 None 80%Q [] None] in
  exists t, trend_df ascii_lower no_beyond df (txt "acme") = Returns t
            /\ points t = [(2020, 80%Q); (2021, 90%Q)]
            /\ trend_df ascii_lower no_beyond df (txt "zzz") = Returns [].
Proof. cbv zeta. eexists. repeat split. Qed.

(** C3. The trend table is not that of one company: with Acme in 2020
    and 2022 and Apex in 2021, the text a selects the rows of both, and
    the chart titled Acme has the point of Apex between those of Acme. *)
Theorem trend_df_mixes_companies :
  let df := [Row (txt "000001") (txt "Acme") 2020 None 80%Q [] None;
             Row (txt "000002") (txt "Apex") 2021 None 70%Q [] None;
             Row (txt "000001") (txt "Acme") 2022 None 90%Q [] None] in
  exists t, trend_df ascii_lower no_beyond df (txt "a") = Returns t
            /\ titled t = Some (txt "Acme")
            /\ points t = [(2020, 80%Q); (2021, 70%Q); (2022, 90%Q)]
            /\ List.map company_name t = [txt "Acme"; txt "Apex"; txt "Acme"].
Proof. cbv zeta. eexists. repeat split. Qed.

(** The claim of a "not available" marker in the cards of the empty
    table fails: the cards hold nothing. *)
Lemma metrics_empty_no_marker :
  ~ (count_card (metrics exact_mean []) = Number 0
     /\ exists marker,
          mean_card (metrics exact_mean []) = Text marker
          /\ max_card (metrics exact_mean []) = Text marker
          /\ min_card (metrics exact_mean []) = Text marker).
Proof. intros (_ & marker & H & _). discriminate. Qed.

Lemma exact_mean_one (x : Q) : (exact_mean [x] == x)%Q.
Proof. unfold exact_mean. simpl. field. Qed.

Lemma metrics_spec_witness :
  exists m,
    metrics exact_mean [Row (txt "000001") (txt "Acme") 2020 None (805 # 10) [] None]
    = Cards (Number 1) (Text (fmt1 m)) (Number 80) (Number 80)
    /\ (m == 805 # 10)%Q.
Proof.
  destruct (proj1 (proj2 (metrics_spec exact_mean)) exact_mean_one
              (Row (txt "000001") (txt "Acme") 2020 None (805 # 10) [] None))
    as (m & _ & Hm & _ & _ & H).
  exists m. split; [exact H | exact Hm].
Defined.


(** The loaded table is changed after the load: a record loaded with no
    industry has one in [df] at the end of the run. *)
Lemma script_changes_loaded_table :
  let loaded := [Row (txt "000001") (txt "Acme") 2020 None 80%Q [] None;
                 Row (txt "000002") (txt "Bolt") 2020 (Some (txt "Tech")) 70%Q [] None] in
  let w := Widgets 2020 all_industries (70, 80) [] in
  nth_error (snd (script ascii_lower no_beyond exact_mean loaded w [])) 0
  = Some (DataFrame
            [Row (txt "000001") (txt "Acme") 2020 (Some unknown_industry)
                 80%Q [] None;
             Row (txt "000002") (txt "Bolt") 2020 (Some (txt "Tech")) 70%Q [] None])
  /\ nth_error (snd (script ascii_lower no_beyond exact_mean loaded w [])) 0 <> Some (DataFrame loaded).
Proof. cbv zeta. split; [reflexivity|discriminate]. Qed.


Lemma default_range_cuts_maximum_witness :
  ~ In (Row (txt "000001") (txt "Acme") 2020 (Some (txt "Tech")) (857 # 10) [] None)
       [Row (txt "000002") (txt "Bolt") 2020 (Some (txt "Tech")) 10%Q [] None].
Proof.
  refine (proj1 (proj2 (default_range_cuts_maximum ascii_lower no_beyond))
            [Row (txt "000002") (txt "Bolt") 2020 (Some (txt "Tech")) 10%Q [] None;
             Row (txt "000001") (txt "Acme") 2020 (Some (txt "Tech")) (857 # 10) [] None]
            (Widgets 2020 all_industries (10, 85) []) 10 85 _ _ _ _ _ _ _).
  - reflexivity.
  - reflexivity.
  - reflexivity.
  - simpl. right. now left.
  - reflexivity.
Defined.
Lemma filtered_df_again_witness :
  filtered_df ascii_lower no_beyond
    [Row (txt "000001") (txt "Acme") 2020 (Some (txt "Tech")) 80%Q [] None]
    (Widgets 2020 (txt "Tech") (70, 80) (txt "ac.e"))
  = Returns [Row (txt "000001") (txt "Acme") 2020 (Some (txt "Tech")) 80%Q [] None].
Proof.
  apply (filtered_df_again ascii_lower no_beyond
           [Row (txt "000001") (txt "Acme") 2020 (Some (txt "Tech")) 80%Q [] None;
            Row (txt "000002") (txt "Bolt") 2020 (Some (txt "Tech")) 60%Q [] None]).
  reflexivity.
Defined.

Lemma filtered_df_default_whole_witness :
  filtered_df ascii_lower no_beyond
    [Row (txt "000001") (txt "Acme") 2020 None 80%Q [] None;
     Row (txt "000002") (txt "Bolt") 2021 None (140 # 2) [] None]
    (Widgets 2021 all_industries (70, 80) [])
  = Returns [Row (txt "000002") (txt "Bolt") 2021 None (140 # 2) [] None].
Proof.
  apply (filtered_df_default_whole ascii_lower no_beyond
           [Row (txt "000001") (txt "Acme") 2020 None 80%Q [] None;
            Row (txt "000002") (txt "Bolt") 2021 None (140 # 2) [] None]
           2021 70 80).
  - reflexivity.
  - intros r [<-|[<-|[]]]; [exists 80|exists 70]; reflexivity.
Defined.

Lemma metrics_within_range_witness :
  exists hi lo,
    max_card (metrics exact_mean [Row (txt "000002") (txt "Bolt") 2020 None (105 # 10) [] None])
    = Number hi
    /\ min_card (metrics exact_mean [Row (txt "000002") (txt "Bolt") 2020 None (105 # 10) [] None])
       = Number lo
    /\ 10 <= lo /\ hi <= 85.
Proof.
  destruct (metrics_within_range ascii_lower no_beyond exact_mean
              [Row (txt "000001") (txt "Acme") 2020 None (857 # 10) [] None;
               Row (txt "000002") (txt "Bolt") 2020 None (105 # 10) [] None]
              (Widgets 2020 all_industries (10, 85) [])
              [Row (txt "000002") (txt "Bolt") 2020 None (105 # 10) [] None])
    as (hi & lo & _ & H1 & H2 & H3 & _ & H4).
  - reflexivity.
  - discriminate.
  - exists hi, lo. simpl in H3, H4. auto.
Defined.

Lemma bar_chart_spec_witness :
  bar_chart exact_mean [Row (txt "000001") (txt "Acme") 2020 (Some (txt "Tech")) 80%Q [] None] 2020
  = industry_avg exact_mean [Row (txt "000001") (txt "Acme") 2020 (Some (txt "Tech")) 80%Q [] None] 2020.
Proof.
  apply (proj2 (proj2 (bar_chart_spec exact_mean
           [Row (txt "000001") (txt "Acme") 2020 (Some (txt "Tech")) 80%Q [] None]
           2020))).
  simpl. lia.
Defined.

Lemma filtered_df_in_trend_witness :
  exists t,
    trend_df ascii_lower no_beyond [Row (txt "000001") (txt "Acme") 2021 None 90%Q [] None;
              Row (txt "000001") (txt "Acme") 2020 None 80%Q [] None]
             (txt "acme")
    = Returns t
    /\ forall r,
         In r [Row (txt "000001") (txt "Acme") 2021 None 90%Q [] None] ->
         In r t.
Proof.
  apply (filtered_df_in_trend ascii_lower no_beyond
           [Row (txt "000001") (txt "Acme") 2021 None 90%Q [] None;
            Row (txt "000001") (txt "Acme") 2020 None 80%Q [] None]
           (Widgets 2021 all_industries (80, 90) (txt "acme"))).
  - reflexivity.
  - discriminate.
Defined.

Lemma by_search_case_witness :
  by_search ascii_lower no_beyond (txt "ACME") [Row (txt "000001") (txt "Acme") 2020 None 80%Q [] None]
  = by_search ascii_lower no_beyond (txt "acme") [Row (txt "000001") (txt "Acme") 2020 None 80%Q [] None].
Proof.
  apply (by_search_case ascii_lower no_beyond _ (txt "ACME") (txt "acme")); reflexivity.
Defined.

Lemma filtered_df_narrows_witness :
  exists whole keep,
    filtered_df ascii_lower no_beyond
      [Row (txt "000001") (txt "Acme") 2020 None 80%Q [] None;
       Row (txt "000002") (txt "Bolt") 2020 None 70%Q [] None]
      (Widgets 2020 all_industries (70, 80) [])
    = Returns whole
    /\ [Row (txt "000002") (txt "Bolt") 2020 None 70%Q [] None]
       = List.filter keep whole.
Proof.
  destruct (filtered_df_narrows ascii_lower no_beyond
              [Row (txt "000001") (txt "Acme") 2020 None 80%Q [] None;
               Row (txt "000002") (txt "Bolt") 2020 None 70%Q [] None]
              (Widgets 2020 all_industries (70, 80) (txt "bo"))
              [Row (txt "000002") (txt "Bolt") 2020 None 70%Q [] None])
    as (whole & keep & H1 & H2 & _).
  - reflexivity.
  - exists whole, keep. auto.
Defined.

Lemma trend_df_rows_witness :
  StronglySorted (fun a b => year a <= year b)
    [Row (txt "000001") (txt "Acme") 2020 None 80%Q [] None;
     Row (txt "000001") (txt "Acme") 2021 None 90%Q [] None].
Proof.
  destruct (trend_df_rows ascii_lower no_beyond
              [Row (txt "000001") (txt "Acme") 2021 None 90%Q [] None;
               Row (txt "000002") (txt "Bolt") 2020 None 70%Q [] None;
               Row (txt "000001") (txt "Acme") 2020 None 80%Q [] None]
              (txt "acme")
              [Row (txt "000001") (txt "Acme") 2020 None 80%Q [] None;
               Row (txt "000001") (txt "Acme") 2021 None 90%Q [] None]
              eq_refl) as (p & _ & _ & H & _).
  exact H.
Defined.

Lemma script_bad_pattern_witness :
  fst (script ascii_lower no_beyond exact_mean
         [Row (txt "000001") (txt "Acme") 2020 None 80%Q [] None;
          Row (txt "000002") (txt "Bolt") 2020 None 70%Q [] None]
         (Widgets 2020 all_industries (70, 80) (txt "(")) [])
  = Raises ReError.
Proof.
  refine (proj1 (script_bad_pattern ascii_lower no_beyond exact_mean
                   [Row (txt "000001") (txt "Acme") 2020 None 80%Q [] None;
                    Row (txt "000002") (txt "Bolt") 2020 None 70%Q [] None]
                   (Widgets 2020 all_industries (70, 80) (txt "(")) 70 80 _ _ _ _)).
  - reflexivity.
  - reflexivity.
  - discriminate.
  - reflexivity.
Defined.

Lemma script_completes_witness :
  exists n h out,
    script ascii_lower no_beyond exact_mean
      [Row (txt "000001") (txt "Acme") 2020 None 80%Q [] None;
       Row (txt "000002") (txt "Bolt") 2020 None 70%Q [] None]
      (Widgets 2020 all_industries (70, 80) (txt "acme")) []
    = (Returns n, h)
    /\ nth_error h (n_df n)
       = Some (DataFrame
                 (fillna_industry
                    [Row (txt "000001") (txt "Acme") 2020 None 80%Q [] None;
                     Row (txt "000002") (txt "Bolt") 2020 None 70%Q [] None]))
    /\ filtered_df ascii_lower no_beyond
         (fillna_industry
            [Row (txt "000001") (txt "Acme") 2020 None 80%Q [] None;
             Row (txt "000002") (txt "Bolt") 2020 None 70%Q [] None])
         (Widgets 2020 all_industries (70, 80) (txt "acme"))
       = Returns out
    /\ nth_error h (n_filtered_df n) = Some (DataFrame out).
Proof.
  apply (script_completes ascii_lower no_beyond exact_mean
           [Row (txt "000001") (txt "Acme") 2020 None 80%Q [] None;
            Row (txt "000002") (txt "Bolt") 2020 None 70%Q [] None]
           (Widgets 2020 all_industries (70, 80) (txt "acme")) 70 80).
  - reflexivity.
  - reflexivity.
  - right. eexists. reflexivity.
Defined.

